(** * interactive_functions: parameter-bound vectorised response curves

    A shallow embedding of the Python package [interactive_functions]
    ([base.py], [power_law_decay.py], [log_growth.py],
    [dispersal_kernels.py]) and the properties of its curve functions and
    bound-curve classes.

    - IEEE binary64 values are [spec_float] (one NaN, signed zeros and
      infinities) with the arithmetic of [SpecFloat] at precision 53.
    - NumPy arrays are records of a shape and a flat list of elements.
    - Python values that can reach the code are the inductive [pyval].
    - Exceptions are values of [exn]; fallible code lives in [result]. *)

From Stdlib Require Import ZArith List String Ascii Bool Lia.
From Stdlib Require Import Floats.SpecFloat.
From Stdlib Require Import DecimalString DecimalN.
From Stdlib Require Import Orders Sorting.Mergesort Sorting.Permutation Sorting.Sorted.
Import ListNotations.

Local Open Scope string_scope.
Local Open Scope list_scope.

Set Implicit Arguments.

(** ** Binary64 arithmetic *)

Module F64.

Definition prec : Z := 53.
Definition emax : Z := 1024.

Definition float := spec_float.

Definition nan : float := S754_nan.
Definition zero : float := S754_zero false.
Definition pinf : float := S754_infinity false.
Definition ninf : float := S754_infinity true.

Definition add : float -> float -> float := SFadd prec emax.
Definition mul : float -> float -> float := SFmul prec emax.
Definition div : float -> float -> float := SFdiv prec emax.
Definition opp : float -> float := SFopp.
Definition abs : float -> float := SFabs.

(** Python's comparison operators on floats; each is [false] on NaN,
    except [!=]. *)
Definition le (x y : float) : bool := SFleb x y.
Definition lt (x y : float) : bool := SFltb x y.
Definition gt (x y : float) : bool := SFltb y x.
Definition eq (x y : float) : bool := SFeqb x y.
Definition ne (x y : float) : bool := negb (SFeqb x y).

(** The integer [m * 2^e], rounded to nearest even. *)
Definition of_dyadic (m e : Z) : float := binary_normalize prec emax m e false.
Definition of_Z (z : Z) : float := of_dyadic z 0.

Definition one : float := of_Z 1.

Definition is_inf (x : float) : bool :=
  match x with S754_infinity _ => true | _ => false end.

Definition is_finite (x : float) : bool :=
  match x with S754_zero _ | S754_finite _ _ _ => true | _ => false end.

Definition max_float : float := SFmax_float prec emax.

End F64.

Abbreviation float := F64.float.

Arguments F64.add : simpl never.
Arguments F64.mul : simpl never.
Arguments F64.div : simpl never.
Arguments F64.opp : simpl never.
Arguments F64.le : simpl never.
Arguments F64.lt : simpl never.
Arguments F64.gt : simpl never.
Arguments F64.eq : simpl never.
Arguments F64.ne : simpl never.
Arguments F64.of_dyadic : simpl never.

(** ** Exceptions and fallible computations *)

(** The three exception classes the code can meet, each with its message. *)
Inductive exn : Type :=
| TypeError (msg : string)
| ValueError (msg : string)
| OverflowError (msg : string).

Inductive result (A : Type) : Type :=
| Ok (a : A)
| Raise (e : exn).

Arguments Ok {A} a.
Arguments Raise {A} e.

Definition bind {A B : Type} (c : result A) (k : A -> result B) : result B :=
  match c with
  | Ok a => k a
  | Raise e => Raise e
  end.

Notation "x <- c ;; k" := (bind c (fun x => k))
  (at level 61, c at next level, right associativity).

(** [[f(v) for v in l]]: left to right, the first exception wins. *)
Definition mapM {A B : Type} (f : A -> result B) : list A -> result (list B) :=
  fix go (l : list A) : result (list B) :=
    match l with
    | [] => Ok []
    | a :: t => b <- f a ;; r <- go t ;; Ok (b :: r)
    end.

(** ** NumPy arrays *)

Record ndarray (A : Type) : Type := mk_ndarray {
  shape : list nat;
  data : list A
}.

Arguments mk_ndarray {A} shape data.

Definition arr_map {A B : Type} (f : A -> B) (a : ndarray A) : ndarray B :=
  {| shape := shape a; data := map f (data a) |}.

Fixpoint zip_with {A B C : Type} (f : A -> B -> C) (l : list A) (m : list B) : list C :=
  match l, m with
  | a :: l', b :: m' => f a b :: zip_with f l' m'
  | _, _ => []
  end.

Definition size {A : Type} (a : ndarray A) : nat := List.length (data a).

(** An array is well formed when it holds as many elements as its shape says. *)
Definition wf_ndarray {A : Type} (a : ndarray A) : bool :=
  Nat.eqb (fold_right Nat.mul 1%nat (shape a)) (size a).

(** ** Python values *)

(** The values a caller can hand to the package: numbers, strings, [None],
    (nested) lists, float arrays, and instances of other classes, which may
    carry a [.value] attribute (a slider of marimo or ipywidgets) and expose
    no numeric protocol of their own. *)
#[warnings="-register-all"]
Inductive pyval : Type :=
| PyFloat (f : float)
| PyInt (z : Z)
| PyBool (b : bool)
| PyStr (s : string)
| PyNone
| PyList (items : list pyval)
| PyArray (a : ndarray float)
| PyObj (modname clsname : string) (value : option pyval).

(** [type(v).__name__] as the interpreter's messages print it. *)
Definition type_name (v : pyval) : string :=
  match v with
  | PyFloat _ => "float"
  | PyInt _ => "int"
  | PyBool _ => "bool"
  | PyStr _ => "str"
  | PyNone => "NoneType"
  | PyList _ => "list"
  | PyArray _ => "numpy.ndarray"
  | PyObj _ c _ => c
  end.

(** [repr(type(v))]: the class name, qualified by its module unless the
    module is [builtins]. *)
Definition type_repr (v : pyval) : string :=
  match v with
  | PyObj m c _ =>
      if String.eqb m "builtins" then ("<class '" ++ c ++ "'>")%string
      else ("<class '" ++ m ++ "." ++ c ++ "'>")%string
  | _ => ("<class '" ++ type_name v ++ "'>")%string
  end.

(** [getattr(v, "value", v)]: only instances of other classes carry one. *)
Definition getattr_value (v : pyval) : pyval :=
  match v with
  | PyObj _ _ (Some w) => w
  | _ => v
  end.

(** ** The platform: what NumPy and the interpreter supply

    The elementary functions of NumPy's ufuncs ([np.exp], [np.log],
    [np.power]) come from the platform's mathematical library, the contents
    of a buffer made by [np.empty_like] are whatever the allocator left
    there, and the grammar of [float(str)] is the interpreter's.  None of
    them is part of the repository: the embedding takes them as an
    interface. *)
Class Platform : Type := {
  np_exp : float -> float;
  np_log : float -> float;
  np_power : float -> float -> float;
  uninit : nat -> float;
  float_of_str : string -> option float
}.

(** The clauses of IEEE 754 / C99 Annex F on NaN operands that the
    properties below rely on: [exp(NaN)] is NaN, and [pow(NaN, y)] is NaN
    unless [y] is a zero. *)
Class AnnexF (P : Platform) : Prop := {
  exp_nan : np_exp F64.nan = F64.nan;
  power_nan : forall y, F64.eq y F64.zero = false -> np_power F64.nan y = F64.nan
}.

Section Package.

Context {P : Platform}.

(** ** Conversions to float *)

(** [float(int)]: the nearest binary64, or [OverflowError] past its range. *)
Definition float_of_int (z : Z) : result float :=
  let f := F64.of_Z z in
  if F64.is_inf f then Raise (OverflowError "int too large to convert to float")
  else Ok f.

Definition float_of_bool (b : bool) : float := if b then F64.one else F64.zero.

Definition not_a_real (v : pyval) : exn :=
  TypeError ("float() argument must be a string or a real number, not '"
             ++ type_name v ++ "'")%string.

Definition not_a_float_string (s : string) : exn :=
  ValueError ("could not convert string to float: '" ++ s ++ "'")%string.

(** The builtin [float(raw)]. *)
Definition py_float (raw : pyval) : result float :=
  match raw with
  | PyFloat f => Ok f
  | PyInt z => float_of_int z
  | PyBool b => Ok (float_of_bool b)
  | PyStr s =>
      match float_of_str s with
      | Some f => Ok f
      | None => Raise (not_a_float_string s)
      end
  | PyArray a =>
      match data a with
      | [f] => Ok f
      | _ => Raise (TypeError "only length-1 arrays can be converted to Python scalars")
      end
  | PyNone | PyList _ | PyObj _ _ _ => Raise (not_a_real raw)
  end.

(** base.py, [_value]: the message of the [TypeError] it raises. *)
Definition cannot_convert (v : pyval) : string :=
  ("Cannot convert " ++ type_repr v
   ++ " to float; expected a number or an object with .value")%string.

(** base.py, [_value]: [float(getattr(v, "value", v))], with the builtin's
    [TypeError] and [ValueError] replaced by a [TypeError] that names the
    type of [v]; any other exception passes through. *)
Definition _value (v : pyval) : result float :=
  let raw := getattr_value v in
  match py_float raw with
  | Ok f => Ok f
  | Raise (TypeError _) | Raise (ValueError _) => Raise (TypeError (cannot_convert v))
  | Raise e => Raise e
  end.

(** ** [np.asarray(x, dtype=float)]

    NumPy's conversion of an array-like, as NumPy documents and performs
    it: an array is taken as it is; nested lists must be rectangular, or
    the call raises [ValueError]; each element is converted as by [float],
    except [None], which becomes NaN; anything else is a 0-d array. *)

(** One element of an array-like: as [float], except that [None] becomes
    NaN. *)
Definition np_scalar (v : pyval) : result float :=
  match v with
  | PyNone => Ok F64.nan
  | _ => py_float v
  end.

Definition inhomogeneous : exn :=
  ValueError "setting an array element with a sequence. The requested array has an inhomogeneous shape.".

(** NumPy first settles the shape: nested lists must be rectangular. *)
Fixpoint discover_shape (x : pyval) : result (list nat) :=
  match x with
  | PyList items =>
      shapes <- mapM discover_shape items ;;
      match shapes with
      | [] => Ok [0%nat]
      | s :: rest =>
          if forallb (fun s' => if list_eq_dec Nat.eq_dec s s' then true else false) rest
          then Ok (List.length items :: s)
          else Raise inhomogeneous
      end
  | PyArray a => Ok (shape a)
  | _ => Ok []
  end.

(** Then it converts the elements in row-major order. *)
Fixpoint leaves (x : pyval) : list pyval :=
  match x with
  | PyList items => flat_map leaves items
  | PyArray a => map PyFloat (data a)
  | _ => [x]
  end.

Definition np_asarray (x : pyval) : result (ndarray float) :=
  match x with
  | PyArray a => Ok a
  | _ =>
      sh <- discover_shape x ;;
      d <- mapM np_scalar (leaves x) ;;
      Ok (mk_ndarray sh d)
  end.

(** ** Elementwise operations

    A ufunc applied to an array and a Python float broadcasts the float;
    the result has the array's shape. *)

Definition np_where (cond : ndarray bool) (y : ndarray float) (other : float)
  : ndarray float :=
  {| shape := shape cond;
     data := zip_with (fun (c : bool) v => if c then v else other) (data cond) (data y) |}.

(** [np.empty_like(a, dtype=np.float64)]: the shape of [a], contents left
    as they were in memory. *)
Definition np_empty_like (a : ndarray float) : ndarray float :=
  {| shape := shape a; data := map uninit (seq 0 (size a)) |}.

(** [np.full_like(a, v)]. *)
Definition np_full_like (a : ndarray float) (v : float) : ndarray float :=
  arr_map (fun _ => v) a.

(** [np.divide(num, denom, out=out, where=mask)]: the quotient is written
    where the mask holds; elsewhere [out] keeps its contents. *)
Definition np_divide_where (num : float) (denom out : ndarray float) (mask : ndarray bool)
  : ndarray float :=
  {| shape := shape out;
     data := zip_with (fun (dm : float * bool) o => if snd dm then F64.div num (fst dm) else o)
               (combine (data denom) (data mask)) (data out) |}.

(** ** The curve functions *)

(** dispersal_kernels.py, [_full_nan_like]. *)
Definition _full_nan_like (x : pyval) : result (ndarray float) :=
  x_arr <- np_asarray x ;;
  Ok (np_full_like x_arr F64.nan).

(** power_law_decay.py, [power_law_decay]. *)
Definition power_law_decay (x : pyval) (a p b : float) : result (ndarray float) :=
  x_arr <- np_asarray x ;;
  let domain := arr_map (fun v => F64.add v b) x_arr in
  let y := arr_map (fun d => F64.mul a (np_power d (F64.opp p))) domain in
  let y := np_where (arr_map (fun d => F64.gt d F64.zero) domain) y F64.nan in
  Ok y.

(** log_growth.py, [log_growth]. *)
Definition log_growth (x : pyval) (a b : float) : result (ndarray float) :=
  x_arr <- np_asarray x ;;
  let domain := arr_map (fun v => F64.add v b) x_arr in
  let y := arr_map (fun d => F64.mul a (np_log d)) domain in
  let y := np_where (arr_map (fun d => F64.gt d F64.zero) domain) y F64.nan in
  Ok y.

(** dispersal_kernels.py, [kernel_exponential]. *)
Definition kernel_exponential (distance : pyval) (lam : float) : result (ndarray float) :=
  if F64.le lam F64.zero then _full_nan_like distance
  else
    r <- np_asarray distance ;;
    let y := arr_map (fun v => np_exp (F64.div (F64.opp v) lam)) r in
    Ok y.

(** dispersal_kernels.py, [kernel_gaussian]; [np.square(t)] is [t * t]. *)
Definition kernel_gaussian (distance : pyval) (sigma : float) : result (ndarray float) :=
  if F64.le sigma F64.zero then _full_nan_like distance
  else
    r <- np_asarray distance ;;
    let y := arr_map (fun v => let t := F64.div v sigma in np_exp (F64.opp (F64.mul t t))) r in
    Ok y.

(** dispersal_kernels.py, [kernel_powerlaw]. *)
Definition kernel_powerlaw (distance : pyval) (alpha p : float) : result (ndarray float) :=
  if F64.le alpha F64.zero || F64.le p F64.zero then _full_nan_like distance
  else
    r <- np_asarray distance ;;
    let base := arr_map (fun v => F64.add F64.one (F64.div v alpha)) r in
    let y := arr_map (fun bs => np_power bs (F64.opp p)) base in
    let y := np_where (arr_map (fun bs => F64.gt bs F64.zero) base) y F64.nan in
    Ok y.

(** dispersal_kernels.py, [kernel_rectangular_hyperbola]: its locals
    [ratio], [denom] and the buffer [y] that [np.divide] returns. *)
Definition rh_ratio (r : ndarray float) (alpha : float) : ndarray float :=
  arr_map (fun v => F64.div v alpha) r.

Definition rh_denom (ratio : ndarray float) (p : float) : ndarray float :=
  arr_map (fun t => F64.add F64.one (np_power t p)) ratio.

Definition rh_divide (ratio denom : ndarray float) : ndarray float :=
  np_divide_where F64.one denom (np_empty_like ratio)
    (arr_map (fun d => F64.ne d F64.zero) denom).

(** dispersal_kernels.py, [kernel_rectangular_hyperbola]. *)
Definition kernel_rectangular_hyperbola (distance : pyval) (alpha p : float)
  : result (ndarray float) :=
  if F64.le alpha F64.zero || F64.le p F64.zero then _full_nan_like distance
  else
    r <- np_asarray distance ;;
    let ratio := rh_ratio r alpha in
    let denom := rh_denom ratio p in
    let y := rh_divide ratio denom in
    let y := np_where (arr_map (fun d => F64.gt d F64.zero) denom) y F64.nan in
    Ok y.

(** dispersal_kernels.py, [kernel_exppower]. *)
Definition kernel_exppower (distance : pyval) (lam q : float) : result (ndarray float) :=
  if F64.le lam F64.zero || F64.le q F64.zero then _full_nan_like distance
  else
    r <- np_asarray distance ;;
    let y := arr_map (fun v => np_exp (F64.opp (np_power (F64.div v lam) q))) r in
    Ok y.

(** ** Bound curves: base.py, [BaseFunction], and its seven subclasses *)

(** One frozen dataclass per curve.  The fields are annotated [float], but
    nothing checks that: they hold whatever the caller passed. *)
Inductive BoundCurve : Type :=
| PowerLawDecay (a p b : pyval)
| LogGrowth (a b : pyval)
| ExponentialKernel (lam : pyval)
| GaussianKernel (sigma : pyval)
| PowerLawKernel (alpha p : pyval)
| ExpPowerKernel (lam q : pyval)
| RectangularHyperbolaKernel (alpha p : pyval).

(** The class of an instance. *)
Inductive Variant7 : Type :=
| VPowerLawDecay | VLogGrowth | VExponentialKernel | VGaussianKernel
| VPowerLawKernel | VExpPowerKernel | VRectangularHyperbolaKernel.

Definition variant (c : BoundCurve) : Variant7 :=
  match c with
  | PowerLawDecay _ _ _ => VPowerLawDecay
  | LogGrowth _ _ => VLogGrowth
  | ExponentialKernel _ => VExponentialKernel
  | GaussianKernel _ => VGaussianKernel
  | PowerLawKernel _ _ => VPowerLawKernel
  | ExpPowerKernel _ _ => VExpPowerKernel
  | RectangularHyperbolaKernel _ _ => VRectangularHyperbolaKernel
  end.

(** The property [parameters]: a dict, which keeps insertion order. *)
Definition parameters (c : BoundCurve) : list (string * pyval) :=
  match c with
  | PowerLawDecay a p b => [("a", a); ("p", p); ("b", b)]
  | LogGrowth a b => [("a", a); ("b", b)]
  | ExponentialKernel lam => [("lam", lam)]
  | GaussianKernel sigma => [("sigma", sigma)]
  | PowerLawKernel alpha p => [("alpha", alpha); ("p", p)]
  | ExpPowerKernel lam q => [("lam", lam); ("q", q)]
  | RectangularHyperbolaKernel alpha p => [("alpha", alpha); ("p", p)]
  end.

(** The class attribute [MATH_TEMPLATE] (raw strings in the source). *)
Definition MATH_TEMPLATE (c : BoundCurve) : string :=
  match c with
  | PowerLawDecay _ _ _ => "$f(x) = a \\cdot (x + b)^{-p}$"
  | LogGrowth _ _ => "$f(x) = a \\cdot \\ln(x + b)$"
  | ExponentialKernel _ => "$K(r) = \exp\!\left(-\dfrac{r}{\lambda}\right)$"
  | GaussianKernel _ => "$K(r) = \exp\!\left(-\left(\dfrac{r}{\sigma}\right)^2\right)$"
  | PowerLawKernel _ _ => "$K(r) = \left(1 + \dfrac{r}{\alpha}\right)^{-p}$"
  | ExpPowerKernel _ _ => "$K(r) = \exp\!\left(-\left(\dfrac{r}{\lambda}\right)^{q}\right)$"
  | RectangularHyperbolaKernel _ _ => "$K(r) = \dfrac{1}{1 + \left(\dfrac{r}{\alpha}\right)^{p}}$"
  end.

(** Keyword arguments, as [fn(x, **params)] passes them. *)
Definition kwargs : Type := list (string * float).

Definition kwarg (kw : kwargs) (name : string) : result float :=
  match find (fun kv => String.eqb (fst kv) name) kw with
  | Some kv => Ok (snd kv)
  | None => Raise (TypeError ("missing a required argument: '" ++ name ++ "'")%string)
  end.

(** The property [fn], applied to [x] and the keyword arguments. *)
Definition fn (c : BoundCurve) (x : pyval) (kw : kwargs) : result (ndarray float) :=
  match c with
  | PowerLawDecay _ _ _ =>
      a <- kwarg kw "a" ;; p <- kwarg kw "p" ;; b <- kwarg kw "b" ;;
      power_law_decay x a p b
  | LogGrowth _ _ =>
      a <- kwarg kw "a" ;; b <- kwarg kw "b" ;; log_growth x a b
  | ExponentialKernel _ =>
      lam <- kwarg kw "lam" ;; kernel_exponential x lam
  | GaussianKernel _ =>
      sigma <- kwarg kw "sigma" ;; kernel_gaussian x sigma
  | PowerLawKernel _ _ =>
      alpha <- kwarg kw "alpha" ;; p <- kwarg kw "p" ;; kernel_powerlaw x alpha p
  | ExpPowerKernel _ _ =>
      lam <- kwarg kw "lam" ;; q <- kwarg kw "q" ;; kernel_exppower x lam q
  | RectangularHyperbolaKernel _ _ =>
      alpha <- kwarg kw "alpha" ;; p <- kwarg kw "p" ;;
      kernel_rectangular_hyperbola x alpha p
  end.

(** [{k: _value(v) for k, v in self.parameters.items()}]. *)
Definition coerce_parameters (c : BoundCurve) : result kwargs :=
  mapM (fun kv : string * pyval => v <- _value (snd kv) ;; Ok (fst kv, v)) (parameters c).

(** [BaseFunction.__call__]: the spec's [evaluate]. *)
Definition __call__ (c : BoundCurve) (x : pyval) : result (ndarray float) :=
  params <- coerce_parameters c ;;
  fn c x params.

(** [BaseFunction.math_str]. *)
Definition math_str (c : BoundCurve) : string := MATH_TEMPLATE c.

End Package.

(** ** Fixed-point formatting: [f"{val:.{precision}f}"] *)

Definition digit_char (d : N) : ascii := ascii_of_N (48 + d).

(** The last [k] decimal digits of [r], most significant first. *)
Fixpoint fixed_digits (k : nat) (r : N) : string :=
  match k with
  | O => ""
  | S k' => (fixed_digits k' (r / 10) ++ String (digit_char (r mod 10)) "")%string
  end.

Definition string_of_N (n : N) : string := NilZero.string_of_uint (N.to_uint n).

(** [m * 2^e * 10^precision], rounded to the nearest integer, ties to even. *)
Definition scaled_round (precision : nat) (m : positive) (e : Z) : N :=
  let num := (Npos m * 10 ^ N.of_nat precision)%N in
  match e with
  | Zneg k =>
      let den := (2 ^ Npos k)%N in
      let q := (num / den)%N in
      let r := (num mod den)%N in
      match (2 * r ?= den)%N with
      | Lt => q
      | Gt => (q + 1)%N
      | Eq => if N.even q then q else (q + 1)%N
      end
  | _ => (num * 2 ^ Z.to_N e)%N
  end.

Definition sign_string (s : bool) : string := if s then "-" else "".

(** The digits of [n / 10^precision], a point, and [precision] digits; no
    point when [precision] is 0. *)
Definition point_string (precision : nat) (n : N) : string :=
  let scale := (10 ^ N.of_nat precision)%N in
  (string_of_N (n / scale)
   ++ match precision with
      | O => ""
      | _ => "." ++ fixed_digits precision (n mod scale)
      end)%string.

Definition format_fixed (precision : nat) (f : float) : string :=
  match f with
  | S754_nan => "nan"
  | S754_infinity s => (sign_string s ++ "inf")%string
  | S754_zero s => (sign_string s ++ point_string precision 0)%string
  | S754_finite s m e =>
      (sign_string s ++ point_string precision (scaled_round precision m e))%string
  end.

Section Display.

Context {P : Platform}.

(** [BaseFunction.params_str]: the loop that fills [items]. *)
Fixpoint params_str_loop (precision : nat) (ps : list (string * pyval)) (items : list string)
  : result (list string) :=
  match ps with
  | [] => Ok items
  | (k, v) :: rest =>
      val <- _value v ;;
      params_str_loop precision rest
        (items ++ [(k ++ "=" ++ format_fixed precision val)%string])
  end.

(** [BaseFunction.params_str(precision, sep)]; the defaults are 2 and
    [", "].  [precision] is a number of decimal places. *)
Definition params_str (precision : nat) (sep : string) (c : BoundCurve) : result string :=
  items <- params_str_loop precision (parameters c) [] ;;
  Ok (String.concat sep items).

End Display.

(** ** A reference platform

    An executable instance of [Platform], used to run the curves on concrete
    inputs and to show that the clauses of [AnnexF] can be met.  The
    elementary functions follow C99 Annex F on the special values and
    evaluate their series in 256-bit fixed point before rounding once to
    binary64; [float_of_str] reads plain decimal literals, [inf] and [nan]. *)

Module Ref.

Local Open Scope Z_scope.

Definition fbits : Z := 256.
Definition fone : Z := 2 ^ fbits.

(** [v * w] in fixed point. *)
Definition fmul (v w : Z) : Z := Z.shiftr (v * w) fbits.

(** The sum of [v^k / k!], for [0 <= v <= 1] in fixed point. *)
Fixpoint exp_series (n : nat) (k : Z) (term acc v : Z) : Z :=
  match n with
  | O => acc
  | S n' =>
      let term' := fmul term v / k in
      exp_series n' (k + 1) term' (acc + term') v
  end.

(** [exp w] for [w >= 0]: halve the argument until it is below 1, sum the
    series, square back. *)
Definition fx_exp_pos (w : Z) : Z :=
  let s := Z.max 0 (Z.log2 w - fbits + 1) in
  let e0 := exp_series 80 1 fone fone (Z.shiftr w s) in
  Z.iter s (fun e => fmul e e) e0.

Definition fx_exp (w : Z) : float :=
  if Z.leb (2 ^ (fbits + 11)) (Z.abs w)
  then (if Z.ltb w 0 then F64.zero else F64.pinf)
  else
    let e := fx_exp_pos (Z.abs w) in
    if Z.leb 0 w then F64.of_dyadic e (- fbits)
    else F64.of_dyadic (2 ^ (fbits + 4400) / e) (- 4400).

(** A finite float in fixed point (truncated). *)
Definition to_fixed (s : bool) (m : positive) (e : Z) : Z :=
  cond_Zopp s (Z.shiftl (Zpos m) (e + fbits)).

Definition exp (x : float) : float :=
  match x with
  | S754_nan => F64.nan
  | S754_infinity false => F64.pinf
  | S754_infinity true => F64.zero
  | S754_zero _ => F64.one
  | S754_finite s m e =>
      if Z.ltb 12 (Z.log2 (Zpos m) + 1 + e)
      then (if s then F64.zero else F64.pinf)
      else fx_exp (to_fixed s m e)
  end.

(** The sum of [z^(2k+1) / (2k+1)], for [0 <= z <= 1/3] in fixed point. *)
Fixpoint atanh_series (n : nat) (k : Z) (pw acc z2 : Z) : Z :=
  match n with
  | O => acc
  | S n' =>
      let pw' := fmul pw z2 in
      atanh_series n' (k + 2) pw' (acc + pw' / k) z2
  end.

Definition fx_atanh (z : Z) : Z := atanh_series 90 3 z z (fmul z z).

Definition ln2 : Z := 2 * fx_atanh (fone / 3).

(** [ln (m * 2^e)] in fixed point: [m = t * 2^d] with [1 <= t < 2], and
    [ln t = 2 atanh ((t - 1) / (t + 1))]. *)
Definition fx_log (m : positive) (e : Z) : Z :=
  let d := Z.log2 (Zpos m) in
  let z := Z.shiftl (Zpos m - 2 ^ d) fbits / (Zpos m + 2 ^ d) in
  (e + d) * ln2 + 2 * fx_atanh z.

Definition log (x : float) : float :=
  match x with
  | S754_nan => F64.nan
  | S754_infinity false => F64.pinf
  | S754_infinity true => F64.nan
  | S754_zero _ => F64.ninf
  | S754_finite true _ _ => F64.nan
  | S754_finite false m e => F64.of_dyadic (fx_log m e) (- fbits)
  end.

(** Whether a finite float [m * 2^e] is an integer, and an odd one. *)
Definition is_integer (m : positive) (e : Z) : bool :=
  match e with
  | Zneg k => Z.eqb (Zpos m mod 2 ^ Zpos k) 0
  | _ => true
  end.

Definition is_odd_integer (m : positive) (e : Z) : bool :=
  match e with
  | Zneg k => Z.eqb (Zpos m mod 2 ^ Zpos k) 0 && Z.odd (Zpos m / 2 ^ Zpos k)
  | Z0 => Z.odd (Zpos m)
  | Zpos _ => false
  end.

Definition odd_integer (y : float) : bool :=
  match y with
  | S754_finite _ m e => is_odd_integer m e
  | _ => false
  end.

Definition negative (y : float) : bool := F64.lt y F64.zero.

(** [x ** y] for finite [x > 0] and finite [y]. *)
Definition pow_pos (mx : positive) (ex : Z) (sy : bool) (my : positive) (ey : Z) : float :=
  fx_exp (cond_Zopp sy (Z.shiftl (fx_log mx ex * Zpos my) ey)).

Definition pow (x y : float) : float :=
  match x, y with
  | _, S754_zero _ => F64.one
  | S754_nan, _ | _, S754_nan =>
      if F64.eq x F64.one then F64.one else F64.nan
  | _, S754_infinity sy =>
      match SFcompare (F64.abs x) F64.one with
      | Some Eq => F64.one
      | Some Lt => if sy then F64.pinf else F64.zero
      | _ => if sy then F64.zero else F64.pinf
      end
  | S754_infinity sx, _ =>
      let s := sx && odd_integer y in
      if negative y then S754_zero s else S754_infinity s
  | S754_zero sx, _ =>
      let s := sx && odd_integer y in
      if negative y then S754_infinity s else S754_zero s
  | S754_finite false mx ex, S754_finite sy my ey => pow_pos mx ex sy my ey
  | S754_finite true mx ex, S754_finite sy my ey =>
      if is_integer my ey then
        let r := pow_pos mx ex sy my ey in
        if is_odd_integer my ey then F64.opp r else r
      else F64.nan
  end.

(** *** Decimal literals *)

Definition is_space (c : ascii) : bool :=
  let n := N_of_ascii c in (N.eqb n 32 || (N.leb 9 n && N.leb n 13))%bool.

Definition lower (c : ascii) : ascii :=
  let n := N_of_ascii c in
  if (N.leb 65 n && N.leb n 90)%bool then ascii_of_N (n + 32) else c.

Fixpoint lstrip (s : string) : string :=
  match s with
  | String c t => if is_space c then lstrip t else s
  | EmptyString => s
  end.

Fixpoint string_rev_onto (s acc : string) : string :=
  match s with
  | String c t => string_rev_onto t (String c acc)
  | EmptyString => acc
  end.

Definition strip (s : string) : string :=
  let r := lstrip (string_rev_onto (lstrip s) "") in string_rev_onto r "".

Fixpoint lowercase (s : string) : string :=
  match s with
  | String c t => String (lower c) (lowercase t)
  | EmptyString => s
  end.

(** The leading digits of [s]: their value after [acc], their number, and
    the rest of [s]. *)
Fixpoint take_digits (s : string) (acc : N) (count : nat) : N * nat * string :=
  match s with
  | String c t =>
      let n := N_of_ascii c in
      if (N.leb 48 n && N.leb n 57)%bool
      then take_digits t (acc * 10 + (n - 48))%N (S count)
      else (acc, count, s)
  | EmptyString => (acc, count, s)
  end.

Definition take_sign (s : string) : bool * string :=
  match s with
  | String "-" t => (true, t)
  | String "+" t => (false, t)
  | _ => (false, s)
  end.

(** [d * 10^scale], correctly rounded. *)
Definition of_decimal (sign : bool) (d : N) (scale : Z) : float :=
  match d with
  | N0 => S754_zero sign
  | Npos m =>
      match scale with
      | Zneg k =>
          let '(q, e, l) :=
            SFdiv_core_binary F64.prec F64.emax (Zpos m) 0 (10 ^ Zpos k) 0 in
          binary_round_aux F64.prec F64.emax sign q e l
      | _ => binary_round F64.prec F64.emax sign (m * Z.to_pos (10 ^ scale)) 0
      end
  end.

Definition parse_exponent (s : string) : option Z :=
  match s with
  | EmptyString => Some 0
  | String c t =>
      if Ascii.eqb (lower c) "e" then
        let '(neg, t1) := take_sign t in
        let '(v, n, rest) := take_digits t1 0 O in
        match n, rest with
        | S _, EmptyString => Some (cond_Zopp neg (Z.of_N v))
        | _, _ => None
        end
      else None
  end.

Definition parse_decimal (sign : bool) (s : string) : option float :=
  let '(ip, ni, r1) := take_digits s 0 O in
  let '(d, nf, r2) :=
    match r1 with
    | String "." t => let '(d, n, r) := take_digits t ip O in (d, n, r)
    | _ => (ip, O, r1)
    end in
  match (ni + nf)%nat with
  | O => None
  | _ =>
      match parse_exponent r2 with
      | Some e => Some (of_decimal sign d (e - Z.of_nat nf))
      | None => None
      end
  end.

Definition parse_float (s : string) : option float :=
  let '(sign, body) := take_sign (strip s) in
  let w := lowercase body in
  if (String.eqb w "inf" || String.eqb w "infinity")%bool then Some (S754_infinity sign)
  else if String.eqb w "nan" then Some F64.nan
  else parse_decimal sign body.

(** A decimal literal as a float. *)
Definition lit (s : string) : float :=
  match parse_float s with
  | Some f => f
  | None => F64.nan
  end.

(** What [np.empty_like] finds in memory: here infinities and sevens. *)
Definition garbage (i : nat) : float :=
  if Nat.even i then F64.pinf else F64.of_Z 7.

#[export] Instance platform : Platform := {|
  np_exp := exp;
  np_log := log;
  np_power := pow;
  uninit := garbage;
  float_of_str := parse_float
|}.

End Ref.

(** * Predicates and sample data of the properties *)

Section Predicates.

Context {P : Platform}.

(** What "an array shaped like the input" means for a curve function: when
    [np.asarray] accepts [x] the call returns an array of the same shape and
    size, and when it raises the call raises the same exception. *)
Definition shaped_like_input (x : pyval) (r : result (ndarray float)) : Prop :=
  match np_asarray x with
  | Ok A => exists B, r = Ok B /\ shape B = shape A /\ size B = size A
  | Raise e => r = Raise e
  end.

(** The call returned an array that holds [v] at flat index [i]. *)
Definition at_pos (r : result (ndarray float)) (i : nat) (v : float) : Prop :=
  exists B, r = Ok B /\ nth_error (data B) i = Some v.

(** The dict comprehension of [__call__] over any list of items. *)
Definition coerce (ps : list (string * pyval)) : result kwargs :=
  mapM (fun kv : string * pyval => v <- _value (snd kv) ;; Ok (fst kv, v)) ps.

(** The first parameter, in declared order, whose coercion raises [e]. *)
Definition first_failure (ps : list (string * pyval)) (v : pyval) (e : exn) : Prop :=
  exists pre k post,
    ps = pre ++ (k, v) :: post
    /\ Forall (fun kv => exists f, _value (snd kv) = Ok f) pre
    /\ _value v = Raise e.

(** The builtin [float] refuses [raw] with a [TypeError] or a [ValueError]:
    [raw] is not a number and cannot be read as one. *)
Definition float_refuses (raw : pyval) : Prop :=
  exists m, py_float raw = Raise (TypeError m) \/ py_float raw = Raise (ValueError m).

End Predicates.

(** [B] has the shape of [A] and holds NaN everywhere. *)
Definition all_nan_like (A B : ndarray float) : Prop :=
  shape B = shape A /\ data B = repeat F64.nan (size A).

(** One rendered item of [params_str]: [f"{k}={val:.{precision}f}"]. *)
Definition render (precision : nat) (kv : string * float) : string :=
  (fst kv ++ "=" ++ format_fixed precision (snd kv))%string.

Fixpoint has_char (c : ascii) (s : string) : bool :=
  match s with
  | EmptyString => false
  | String a t => Ascii.eqb a c || has_char c t
  end.

(** [needle in hay]. *)
Fixpoint is_substring (needle hay : string) : bool :=
  if String.prefix needle hay then true
  else match hay with
       | EmptyString => false
       | String _ t => is_substring needle t
       end.

Definition is_digit (c : ascii) : bool :=
  let n := N_of_ascii c in (N.leb 48 n && N.leb n 57)%bool.

Fixpoint all_digits (s : string) : bool :=
  match s with
  | EmptyString => true
  | String a t => is_digit a && all_digits t
  end.

(** *** Fixed-point notation, read back

    What the format specification [.{precision}f] promises of its result,
    stated on the text: the number a string of digits denotes, and the
    text of a float in terms of that number. *)

Definition digit_value (c : ascii) : N := (N_of_ascii c - 48)%N.

(** The number a string of decimal digits denotes, most significant digit
    first, after the digits already read as [acc]. *)
Fixpoint decimal_acc (s : string) (acc : N) : N :=
  match s with
  | EmptyString => acc
  | String c t => decimal_acc t (10 * acc + digit_value c)%N
  end.

Definition decimal_value (s : string) : N := decimal_acc s 0.

(** An integer part as Python prints it: at least one digit, and no zero in
    front of another digit. *)
Definition canonical_integer (s : string) : Prop :=
  all_digits s = true
  /\ match s with
     | EmptyString => False
     | String c t => c <> "0"%char \/ t = EmptyString
     end.

(** [n] is the integer nearest to [num / den], and the even one of the two
    when [num / den] lies half way between them. *)
Definition nearest_even (num den n : Z) : Prop :=
  (2 * Z.abs (n * den - num) <= den)%Z
  /\ (2 * Z.abs (n * den - num) = den -> Z.even n = true)%Z.

(** [text] is the number of sign [negative] and magnitude [num / den] in
    fixed-point notation: a minus sign for a negative number, the integer
    part, and for a positive [precision] a point and [precision] digits;
    the digits, read as one integer, are [num / den * 10^precision] rounded
    to nearest, ties to even. *)
Definition decimal_text (precision : nat) (negative : bool) (num den : Z) (text : string)
  : Prop :=
  exists ip fp : string,
    text = ((if negative then "-" else "") ++ ip
            ++ match precision with O => "" | _ => "." ++ fp end)%string
    /\ canonical_integer ip
    /\ all_digits fp = true
    /\ String.length fp = precision
    /\ nearest_even (num * 10 ^ Z.of_nat precision) den (Z.of_N (decimal_value (ip ++ fp))).

(** [text] is the float [f] in fixed-point notation with [precision]
    decimals.  A finite float of mantissa [m] and exponent [e] has the
    magnitude [m * 2^e]; a zero keeps its sign; the rest are ["nan"],
    ["inf"] and ["-inf"]. *)
Definition fixed_point_of (precision : nat) (f : float) (text : string) : Prop :=
  match f with
  | S754_nan => text = "nan"
  | S754_infinity s => text = if s then "-inf" else "inf"
  | S754_zero s => decimal_text precision s 0 1 text
  | S754_finite s m e =>
      decimal_text precision s (Zpos m * 2 ^ Z.max e 0) (2 ^ Z.max (- e) 0) text
  end.

(** Somewhere in [s] a character that satisfies [p] is followed by one that
    satisfies [q]. *)
Fixpoint has_adjacent (p q : ascii -> bool) (s : string) : bool :=
  match s with
  | EmptyString => false
  | String a t =>
      match t with
      | EmptyString => false
      | String b _ => (p a && q b) || has_adjacent p q t
      end
  end.

Definition is_minus (c : ascii) : bool := Ascii.eqb c "-".

(** The input [[0, -1, 2.5]] and the array it converts to. *)
Definition sample_input : pyval :=
  PyList [PyFloat (Ref.lit "0"); PyFloat (Ref.lit "-1"); PyFloat (Ref.lit "2.5")].

Definition sample_array : ndarray float :=
  mk_ndarray [3%nat] [Ref.lit "0"; Ref.lit "-1"; Ref.lit "2.5"].

(** The input [[1, nan, 3]]. *)
Definition nan_input : pyval :=
  PyList [PyFloat (Ref.lit "1"); PyFloat F64.nan; PyFloat (Ref.lit "3")].

Definition nan_array : ndarray float :=
  mk_ndarray [3%nat] [Ref.lit "1"; F64.nan; Ref.lit "3"].

(** The input [[-10, 0, 5]] with [alpha = 10] and [p = 1]: the denominator
    at position 0 is [1 + (-1) = 0]. *)
Definition zero_denominator_input : pyval :=
  PyList [PyFloat (Ref.lit "-10"); PyFloat (Ref.lit "0"); PyFloat (Ref.lit "5")].

Definition zero_denominator_array : ndarray float :=
  mk_ndarray [3%nat] [Ref.lit "-10"; Ref.lit "0"; Ref.lit "5"].


(** A power-law decay with [a = 2], [p] a slider at 1.5, and [b = 0]. *)
Definition slider_curve : BoundCurve :=
  PowerLawDecay (PyFloat (Ref.lit "2"))
                (PyObj "marimo" "slider" (Some (PyFloat (Ref.lit "1.5"))))
                (PyInt 0).

(** A power-law decay with [a = -1.5], [p] a slider at 0.375, and [b] the
    text ['2.675']: a negative value, a tie, and a literal that is not a
    binary fraction. *)
Definition rounding_curve : BoundCurve :=
  PowerLawDecay (PyFloat (Ref.lit "-1.5"))
                (PyObj "marimo" "slider" (Some (PyFloat (Ref.lit "0.375"))))
                (PyStr "2.675").

(** A list of decimal literals as an array-like, and a result as its shape
    and its elements in fixed-point notation. *)
Definition floats (literals : list string) : pyval :=
  PyList (map (fun s => PyFloat (Ref.lit s)) literals).

Definition rendered (precision : nat) (r : result (ndarray float))
  : result (list nat * list string) :=
  a <- r ;; Ok (shape a, map (format_fixed precision) (data a)).

(** The exact cases of IEEE 754 / C99 Annex F that fix the kernels at the
    origin: [exp(+-0)] is 1, [pow(1, y)] is 1 for every [y], and
    [pow(+-0, y)] is a zero for [y > 0]. *)
Class AnnexFExact (P : Platform) : Prop := {
  exp_zero : forall s, np_exp (S754_zero s) = F64.one;
  power_one : forall y, np_power F64.one y = F64.one;
  power_zero : forall s y, F64.gt y F64.zero = true ->
                           exists s', np_power (S754_zero s) y = S754_zero s'
}.

(** The platform [P] with other contents in its fresh buffers. *)
Definition with_uninit (P : Platform) (junk : nat -> float) : Platform := {|
  np_exp := np_exp;
  np_log := np_log;
  np_power := np_power;
  uninit := junk;
  float_of_str := float_of_str
|}.


Definition zeros_array : ndarray float :=
  mk_ndarray [2%nat] [S754_zero false; S754_zero true].


(** * The notebooks' path helper

    docs/examples/dispersal_kernels_marimo.py, [_ensure_project_src_on_path].
    A resolved path is the list of its components below the root; the file
    system is seen through [Path.exists], and [sys.path] is the state. *)

Definition Path : Type := list string.

(** [str(p)]. *)
Definition path_str (p : Path) : string :=
  match p with
  | [] => "/"
  | _ => String.concat "" (map (fun c => ("/" ++ c)%string) p)
  end.

(** [p.parent] (the root is its own parent) and [p.parents], nearest first. *)
Definition parent (p : Path) : Path := removelast p.

Definition parents (p : Path) : list Path :=
  map (fun n => firstn n p) (rev (seq 0 (List.length p))).

(** [root / name]. *)
Definition joinpath (root : Path) (name : string) : Path := root ++ [name].

(** [s in sys.path]. *)
Definition str_in (s : string) (l : list string) : bool := existsb (String.eqb s) l.

Section PathHelper.

Variable path_exists : Path -> bool.

(** The loop over [potential_roots]; it returns at the first root that
    holds a [pyproject.toml]. *)
Fixpoint ensure_loop (roots : list Path) (sys_path : list string) : list string :=
  match roots with
  | [] => sys_path
  | root :: rest =>
      if path_exists (joinpath root "pyproject.toml") then
        let src_dir := joinpath root "src" in
        if path_exists src_dir && negb (str_in (path_str src_dir) sys_path)
        then path_str src_dir :: sys_path
        else sys_path
      else ensure_loop rest sys_path
  end.

Definition potential_roots (file_path : Path) : list Path :=
  parent file_path :: parents file_path.

(** [_ensure_project_src_on_path], from [Path(__file__).resolve()] and the
    current [sys.path] to the new [sys.path]. *)
Definition _ensure_project_src_on_path (file_path : Path) (sys_path : list string)
  : list string :=
  ensure_loop (potential_roots file_path) sys_path.

End PathHelper.

(** [root] is the nearest of [roots] that holds a [pyproject.toml]. *)
Definition nearest_project (path_exists : Path -> bool) (roots : list Path) (root : Path)
  : Prop :=
  exists pre post,
    roots = pre ++ root :: post
    /\ Forall (fun r => path_exists (joinpath r "pyproject.toml") = false) pre
    /\ path_exists (joinpath root "pyproject.toml") = true.

(** A checkout at [/home/me/proj] and a file system that holds its
    [pyproject.toml] and [src], and a [pyproject.toml] with no [src] in
    [/home/me/proj/docs]. *)
Definition notebook_path : Path := ["home"; "me"; "proj"; "docs"; "examples"; "nb.py"].

Definition checkout (p : Path) : bool :=
  if list_eq_dec string_dec p ["home"; "me"; "proj"; "pyproject.toml"] then true
  else if list_eq_dec string_dec p ["home"; "me"; "proj"; "src"] then true
  else false.

Definition nested_checkout (p : Path) : bool :=
  if list_eq_dec string_dec p ["home"; "me"; "proj"; "docs"; "pyproject.toml"] then true
  else checkout p.

(** * The documentation renderer

    md_docs_parser.py, [doc_to_markdown].  The parser of the docstring is
    the library [docstring_parser]; the embedding takes its result, with
    the fields the renderer reads.  A character of a text stands for a code
    point below 256. *)

(** [c.isspace()], on code points below 256. *)
Definition py_isspace (c : ascii) : bool :=
  let n := N_of_ascii c in
  ((N.leb 9 n && N.leb n 13) || (N.leb 28 n && N.leb n 32)
   || N.eqb n 133 || N.eqb n 160)%bool.

Fixpoint py_lstrip (s : string) : string :=
  match s with
  | String c t => if py_isspace c then py_lstrip t else s
  | EmptyString => EmptyString
  end.

Fixpoint py_rstrip (s : string) : string :=
  match s with
  | EmptyString => EmptyString
  | String c t =>
      match py_rstrip t with
      | EmptyString => if py_isspace c then EmptyString else String c EmptyString
      | r => String c r
      end
  end.

(** [s.strip()]. *)
Definition py_strip (s : string) : string := py_rstrip (py_lstrip s).

Definition newline : string := String "010" EmptyString.

Record DocstringParam : Type := {
  arg_name : string;
  param_type_name : option string;
  param_description : option string
}.

Record DocstringReturns : Type := {
  returns_type_name : option string;
  returns_description : option string
}.

Record DocstringRaises : Type := {
  raises_type_name : option string;
  raises_description : option string
}.

Record DocstringExample : Type := {
  example_description : option string
}.

Record Docstring : Type := {
  short_description : option string;
  long_description : option string;
  params : list DocstringParam;
  returns : option DocstringReturns;
  raises : list DocstringRaises;
  examples : list DocstringExample
}.

(** The truth value of an optional text: [None] and [''] are false. *)
Definition truthy (o : option string) : bool :=
  match o with
  | Some (String _ _) => true
  | _ => false
  end.

(** [o or default]. *)
Definition or_else (o : option string) (default : string) : string :=
  if truthy o then match o with Some s => s | None => default end else default.

Definition description_lines (o : option string) : list string :=
  if truthy o then [py_strip (or_else o ""); ""] else [].

Definition param_line (p : DocstringParam) : string :=
  let desc := py_strip (or_else (param_description p) "") in
  let type_prefix :=
    if truthy (param_type_name p)
    then ("(" ++ or_else (param_type_name p) "" ++ ") ")%string else "" in
  ("- " ++ arg_name p ++ ": " ++ type_prefix ++ desc)%string.

Definition returns_line (r : DocstringReturns) : string :=
  let ret_desc := py_strip (or_else (returns_description r) "") in
  if truthy (returns_type_name r)
  then ("- " ++ or_else (returns_type_name r) "" ++ ": " ++ ret_desc)%string
  else ("- " ++ ret_desc)%string.

Definition raises_line (r : DocstringRaises) : string :=
  let tn := or_else (raises_type_name r) "Exception" in
  let desc := py_strip (or_else (raises_description r) "") in
  ("- " ++ tn ++ ": " ++ desc)%string.

Definition example_lines (ex : DocstringExample) : list string :=
  let code := py_strip (or_else (example_description ex) "") in
  match code with
  | EmptyString => []
  | _ => ["```python"; code; "```"; ""]
  end.

(** The list [lines] when the function reaches its [return]. *)
Definition doc_lines (ds : Docstring) : list string :=
  description_lines (short_description ds)
  ++ description_lines (long_description ds)
  ++ match params ds with
     | [] => []
     | ps => "## Args" :: map param_line ps ++ [""]
     end
  ++ match returns ds with
     | None => []
     | Some r => ["## Returns"; returns_line r; ""]
     end
  ++ match raises ds with
     | [] => []
     | rs => "## Raises" :: map raises_line rs ++ [""]
     end
  ++ match examples ds with
     | [] => []
     | exs => "## Examples" :: flat_map example_lines exs
     end.

(** The renderer, from the parsed docstring on. *)
Definition render_docstring (ds : Docstring) : string :=
  py_rstrip (String.concat newline (doc_lines ds)).

(** [doc_to_markdown], given the parser and the result of
    [inspect.getdoc(obj)]. *)
Definition doc_to_markdown (parse : string -> Docstring) (doc : option string) : string :=
  render_docstring (parse (or_else doc "")).

(** The descriptions of the entries with their surrounding whitespace
    removed, a missing one made empty. *)
Definition tidy (o : option string) : option string := Some (py_strip (or_else o "")).

Definition tidy_docstring (ds : Docstring) : Docstring := {|
  short_description := short_description ds;
  long_description := long_description ds;
  params := map (fun p => {| arg_name := arg_name p;
                             param_type_name := param_type_name p;
                             param_description := tidy (param_description p) |})
                (params ds);
  returns := option_map (fun r => {| returns_type_name := returns_type_name r;
                                     returns_description := tidy (returns_description r) |})
                        (returns ds);
  raises := map (fun r => {| raises_type_name := raises_type_name r;
                             raises_description := tidy (raises_description r) |})
                (raises ds);
  examples := map (fun ex => {| example_description := tidy (example_description ex) |})
                  (examples ds)
|}.

(** The parsed docstring of a function with one argument, and one whose
    only example is blank. *)
Definition sample_docstring : Docstring := {|
  short_description := Some "Exponential kernel.";
  long_description := None;
  params := [{| arg_name := "lam"; param_type_name := Some "float";
                param_description := Some "  Positive scale.  " |}];
  returns := Some {| returns_type_name := None;
                     returns_description := Some "Array like the input." |};
  raises := [{| raises_type_name := None; raises_description := None |}];
  examples := [{| example_description := Some "k(r)" |}]
|}.

Definition blank_example_docstring : Docstring := {|
  short_description := Some "Summary.";
  long_description := None;
  params := [];
  returns := None;
  raises := [];
  examples := [{| example_description := Some "   " |}; {| example_description := None |}]
|}.

(** * The deployment validation tool

    tools/validate_pyodide_deployment.py.  The tool reads the working
    directory and prints its findings; the embedding takes what it reads as
    a [World] of regular files and returns, with each result, the lines
    printed.  [urljoin] is the standard library's. *)

Inductive ZipFile : Type :=
| BadZipFile
| Members (namelist : list string).

Record WheelFile : Type := {
  st_size : N;
  zip : ZipFile
}.

(** The wheel at its fixed path, if there, and the text of each file of
    the working directory that exists. *)
Record World : Type := {
  wheel_file : option WheelFile;
  read_file : string -> option string
}.

Definition double_quote : string := String (ascii_of_nat 34) EmptyString.

Definition wheel_path : string :=
  "docs/assets/wheels/interactive_functions-latest-py3-none-any.whl".

(** [any(needle in f for f in files)]. *)
Definition any_contains (needle : string) (files : list string) : bool :=
  existsb (is_substring needle) files.

(** [check_wheel_file]. *)
Definition check_wheel_file (w : World) : bool * list string :=
  match wheel_file w with
  | None => (false, [("❌ Wheel file missing: " ++ wheel_path)%string])
  | Some f =>
      let out := [("✅ Wheel file exists: " ++ wheel_path)%string;
                  ("   Size: " ++ string_of_N (st_size f) ++ " bytes")%string] in
      match zip f with
      | Members files =>
          let has_init := any_contains "__init__.py" files in
          let has_metadata := any_contains "METADATA" files in
          if has_init && has_metadata
          then (true, out ++ ["   ✅ Wheel structure is valid"])
          else (false, out ++ ["   ❌ Wheel structure is invalid"])
      | BadZipFile => (false, out ++ ["   ❌ Wheel file is corrupted"])
      end
  end.

Definition marimo_files : list string :=
  ["dispersal_kernels_marimo.py"; "diminishing_marimo.py"].

(** The required patterns, each with its name. *)
Definition checks : list (string * string) :=
  [("emscripten check",
    ("sys.platform == " ++ double_quote ++ "emscripten" ++ double_quote)%string);
   ("wheel_url construction", "wheel_url = urljoin(");
   ("micropip install", "await micropip.install(");
   ("interactive_functions import", "import interactive_functions")].

(** The inner loop of [check_marimo_files], over the patterns. *)
Fixpoint check_patterns (content : string) (cs : list (string * string))
         (file_ok : bool) (out : list string) : bool * list string :=
  match cs with
  | [] => (file_ok, out)
  | (check_name, pattern) :: rest =>
      if is_substring pattern content
      then check_patterns content rest file_ok (out ++ [("   ✅ " ++ check_name)%string])
      else check_patterns content rest false (out ++ [("   ❌ " ++ check_name)%string])
  end.

(** The outer loop of [check_marimo_files], over the files. *)
Fixpoint check_files (w : World) (files : list string) (all_good : bool) (out : list string)
  : bool * list string :=
  match files with
  | [] => (all_good, out)
  | filename :: rest =>
      match read_file w filename with
      | None =>
          check_files w rest false (out ++ [("❌ Marimo file missing: " ++ filename)%string])
      | Some content =>
          let '(file_ok, out') :=
            check_patterns content checks true
              (out ++ [("✅ Checking " ++ filename ++ ":")%string]) in
          check_files w rest (if file_ok then all_good else false) out'
      end
  end.

(** [check_marimo_files]. *)
Definition check_marimo_files (w : World) : bool * list string :=
  check_files w marimo_files true [].

(** [s.endswith(suffix)]. *)
Definition py_endswith (s suffix : string) : bool :=
  String.prefix (Ref.string_rev_onto suffix "") (Ref.string_rev_onto s "").

Definition expected_url : string :=
  "https://harryeslick.github.io/interactive_functions/examples/dispersal_kernels/assets/wheels/interactive_functions-latest-py3-none-any.whl".

Section ValidationTool.

Variable urljoin : string -> string -> string.

(** [check_url_patterns]. *)
Definition check_url_patterns : bool * list string :=
  let base_href :=
    "https://harryeslick.github.io/interactive_functions/examples/dispersal_kernels/" in
  let base_href := if py_endswith base_href "/" then base_href else (base_href ++ "/")%string in
  let wheel_url :=
    urljoin base_href "assets/wheels/interactive_functions-latest-py3-none-any.whl" in
  if String.eqb wheel_url expected_url
  then (true, ["✅ URL construction works correctly";
               ("   Generated: " ++ wheel_url)%string])
  else (false, ["❌ URL construction failed";
                ("   Generated: " ++ wheel_url)%string;
                ("   Expected:  " ++ expected_url)%string]).

(** The loop of [main] over the three checks. *)
Fixpoint run_all (cs : list (string * (bool * list string))) (all_passed : bool)
         (out : list string) : bool * list string :=
  match cs with
  | [] => (all_passed, out)
  | (check_name, (result, printed)) :: rest =>
      run_all rest (if result then all_passed else false)
        (out ++ [(newline ++ "📋 " ++ check_name)%string] ++ printed)
  end.

Definition rule : string := "========================================".

(** [main]: the exit code and the lines printed. *)
Definition main (w : World) : Z * list string :=
  let out := ["🔍 Pyodide Deployment Validation"; rule] in
  let '(all_passed, out) :=
    run_all [("Wheel file validation", check_wheel_file w);
             ("Marimo files validation", check_marimo_files w);
             ("URL pattern validation", check_url_patterns)] true out in
  let out := out ++ [(newline ++ rule)%string] in
  if all_passed
  then (0%Z, out ++ ["🎉 All validation checks passed!";
                     "📦 Deployment should work correctly"])
  else (1%Z, out ++ ["💥 Some validation checks failed!";
                     "🔧 Please fix the issues before deployment"]).

End ValidationTool.

(** A file holds all the [checks]. *)
Definition has_all_patterns (content : string) : bool :=
  forallb (fun c : string * string => is_substring (snd c) content) checks.

(** A wheel that is there, is a zip, and has a member named like
    [__init__.py] and one named like [METADATA]. *)
Definition wheel_is_valid (w : World) : bool :=
  match wheel_file w with
  | Some f =>
      match zip f with
      | Members files =>
          existsb (is_substring "__init__.py") files
          && existsb (is_substring "METADATA") files
      | BadZipFile => false
      end
  | None => false
  end.

(** A notebook that passes, a working directory ready for deployment, and
    one whose second notebook is missing. *)
Definition good_notebook : string :=
  ("if sys.platform == " ++ double_quote ++ "emscripten" ++ double_quote ++ ":" ++ newline
   ++ "    wheel_url = urljoin(base, name)" ++ newline
   ++ "    await micropip.install(wheel_url)" ++ newline
   ++ "import interactive_functions" ++ newline)%string.

Definition ready_world : World := {|
  wheel_file := Some {| st_size := 12345;
                        zip := Members ["interactive_functions/__init__.py";
                                        "interactive_functions-0.1.0.dist-info/METADATA"] |};
  read_file := fun name => if existsb (String.eqb name) marimo_files
                           then Some good_notebook else None
|}.

Definition incomplete_world : World := {|
  wheel_file := wheel_file ready_world;
  read_file := fun name => if String.eqb name "dispersal_kernels_marimo.py"
                           then Some "import interactive_functions" else None
|}.

(** [urljoin] on a base that ends with a slash and a relative path. *)
Definition join_relative (base rel : string) : string := (base ++ rel)%string.

(** * The export tool

    tools/export_marimo.py, [export_marimo_apps].  The embedding takes the
    names that [notebooks_dir.glob("*.py")] yields and, for
    [subprocess.run], the return code of each command; paths are absolute.
    It returns the lines printed, the commands run, and how the call
    ended. *)

(** The order of [sorted] on the paths of one directory: that of their
    names, by code point. *)
Module NameOrder <: Orders.TotalLeBool.
Definition t : Type := string.
Definition leb : t -> t -> bool := String.leb.
Theorem leb_total : forall x y : t, leb x y = true \/ leb y x = true.
Proof. exact String.leb_total. Qed.
End NameOrder.

Module NameSort := Sort NameOrder.

(** The name split at its last dot: what stands before it, and the rest
    from the dot on. *)
Fixpoint split_last_dot (name : string) : option (string * string) :=
  match name with
  | EmptyString => None
  | String c t =>
      match split_last_dot t with
      | Some (stem, suffix) => Some (String c stem, suffix)
      | None => if Ascii.eqb c "." then Some (EmptyString, name) else None
      end
  end.

(** [PurePath.with_suffix], on the name: the part from the last dot on is
    replaced, unless that dot opens or ends the name. *)
Definition with_suffix (name suffix : string) : string :=
  match split_last_dot name with
  | Some (String c stem, String d (String e rest)) => (String c stem ++ suffix)%string
  | _ => (name ++ suffix)%string
  end.

Inductive export_outcome : Type :=
| Exported
| CalledProcessError (returncode : Z) (cmd : list string).

Record export_trace : Type := {
  printed : list string;
  commands : list (list string);
  outcome : export_outcome
}.

Definition export_command (dir : Path) (name : string) : list string :=
  ["python"; "-m"; "marimo"; "export";
   path_str (joinpath dir name); "--to"; path_str (joinpath dir (with_suffix name ".html"))].

Section ExportTool.

Variable run : list string -> Z.

(** The loop over [py_files]; [check=True] ends it at the first command
    that returns a code other than 0. *)
Fixpoint export_loop (dir : Path) (names : list string)
         (out : list string) (done : list (list string)) : export_trace :=
  match names with
  | [] => {| printed := out; commands := done; outcome := Exported |}
  | name :: rest =>
      let cmd := export_command dir name in
      let out' := out ++ [("Exporting " ++ path_str (joinpath dir name) ++ " -> "
                           ++ path_str (joinpath dir (with_suffix name ".html")))%string] in
      if Z.eqb (run cmd) 0 then export_loop dir rest out' (done ++ [cmd])
      else {| printed := out'; commands := done ++ [cmd];
              outcome := CalledProcessError (run cmd) cmd |}
  end.

(** [export_marimo_apps(root)]. *)
Definition export_marimo_apps (root : Path) (listing : list string) : export_trace :=
  let notebooks_dir := root ++ ["docs"; "notebooks"] in
  match NameSort.sort listing with
  | [] => {| printed := ["No .py files found under docs/notebooks; nothing to export."];
             commands := []; outcome := Exported |}
  | py_files => export_loop notebooks_dir py_files [] []
  end.

End ExportTool.

(** An export in which the command for [b.py] fails. *)
Definition failing_run (cmd : list string) : Z :=
  if existsb (String.eqb "/proj/docs/notebooks/b.py") cmd then 2%Z else 0%Z.

(** What one notebook contributes: whether it passes, and how many lines
    it prints. *)
Definition notebook_passes (w : World) (filename : string) : bool :=
  match read_file w filename with
  | Some content => has_all_patterns content
  | None => false
  end.

Definition notebook_lines (w : World) (filename : string) : nat :=
  match read_file w filename with
  | Some _ => S (List.length checks)
  | None => 1
  end.

(** * Properties *)

(** ** The documented examples, on the reference platform *)

(** The doctest of [kernel_exponential]:
    [kernel_exponential(np.linspace(0, 10, 5), lam=2.0).round(4)]. *)
Example kernel_exponential_doctest :
  rendered 4 (kernel_exponential (P := Ref.platform)
                (floats ["0"; "2.5"; "5"; "7.5"; "10"]) (Ref.lit "2.0"))
  = Ok ([5%nat], ["1.0000"; "0.2865"; "0.0821"; "0.0235"; "0.0067"]).
Proof. vm_compute. reflexivity. Qed.

(** Power-law decay with [a = 2.0], [p = 1.5], [b = 0.0]. *)
Example power_law_decay_example :
  rendered 3 (power_law_decay (P := Ref.platform) (floats ["0.1"; "1"; "10"])
                (Ref.lit "2.0") (Ref.lit "1.5") (Ref.lit "0.0"))
  = Ok ([3%nat], ["63.246"; "2.000"; "0.063"]).
Proof. vm_compute. reflexivity. Qed.

(** Outside the domain: [x + b = -1]. *)
Example power_law_decay_outside_domain :
  power_law_decay (P := Ref.platform) (floats ["-1"]) (Ref.lit "1") (Ref.lit "1") (Ref.lit "0")
  = Ok (mk_ndarray [1%nat] [F64.nan]).
Proof. vm_compute. reflexivity. Qed.

(** The kernels at [r = 0] are 1. *)
Example kernels_at_zero :
  kernel_exponential (P := Ref.platform) (PyFloat F64.zero) (Ref.lit "3")
  = Ok (mk_ndarray [] [F64.one])
  /\ kernel_gaussian (P := Ref.platform) (PyFloat F64.zero) (Ref.lit "3")
     = Ok (mk_ndarray [] [F64.one])
  /\ kernel_rectangular_hyperbola (P := Ref.platform) (PyFloat F64.zero)
       (Ref.lit "10") (Ref.lit "2")
     = Ok (mk_ndarray [] [F64.one]).
Proof. vm_compute. repeat split. Qed.

(** A bound curve whose [p] is a slider, on a mixed array-like. *)
Example bound_curve_example :
  rendered 2 (__call__ (P := Ref.platform) slider_curve
                (PyList [PyInt 1; PyBool true; PyStr " 4.0 "; PyNone]))
  = Ok ([4%nat], ["2.00"; "2.00"; "0.25"; "nan"]).
Proof. vm_compute. reflexivity. Qed.

(** Ties go to the even digit, and a negative value keeps its sign. *)
Example format_fixed_examples :
  format_fixed 2 (Ref.lit "0.125") = "0.12"
  /\ format_fixed 2 (Ref.lit "0.375") = "0.38"
  /\ format_fixed 0 (Ref.lit "2.5") = "2"
  /\ format_fixed 2 (Ref.lit "-0.001") = "-0.00"
  /\ format_fixed 20 (Ref.lit "0.1") = "0.10000000000000000555".
Proof. vm_compute. repeat split. Qed.

(** ** Lists and arrays *)

Lemma zip_with_length {A B C : Type} (f : A -> B -> C) (l : list A) (m : list B) :
  List.length (zip_with f l m) = Nat.min (List.length l) (List.length m).
Proof.
  revert m; induction l as [|a l IH]; intros [|b m]; simpl; auto.
Qed.

Lemma nth_error_zip_with {A B C : Type} (f : A -> B -> C) (l : list A) (m : list B)
      (i : nat) (a : A) (b : B) :
  nth_error l i = Some a -> nth_error m i = Some b ->
  nth_error (zip_with f l m) i = Some (f a b).
Proof.
  revert m i; induction l as [|a' l IH]; intros [|b' m] [|i]; simpl;
    try discriminate; intros Ha Hb.
  - congruence.
  - now apply IH.
Qed.

Lemma nth_error_combine_some {A B : Type} (l : list A) (m : list B) (i : nat) (a : A) (b : B) :
  nth_error l i = Some a -> nth_error m i = Some b ->
  nth_error (combine l m) i = Some (a, b).
Proof.
  revert m i; induction l as [|a' l IH]; intros [|b' m] [|i]; simpl;
    try discriminate; intros Ha Hb.
  - congruence.
  - now apply IH.
Qed.

Lemma nth_error_map_some {A B : Type} (f : A -> B) (l : list A) (i : nat) (a : A) :
  nth_error l i = Some a -> nth_error (map f l) i = Some (f a).
Proof.
  revert i; induction l as [|a' l IH]; intros [|i]; simpl; try discriminate.
  - congruence.
  - apply IH.
Qed.

Lemma nth_error_seq_some (n i : nat) {A : Type} (l : list A) (a : A) :
  nth_error l i = Some a -> List.length l = n -> nth_error (seq 0 n) i = Some i.
Proof.
  intros Ha Hn.
  assert (i < n)%nat as Hlt by (subst n; apply nth_error_Some; congruence).
  rewrite nth_error_seq.
  destruct (Nat.ltb_spec i n); [reflexivity | lia].
Qed.

Lemma map_const_repeat {A B : Type} (b : B) (l : list A) :
  map (fun _ => b) l = repeat b (List.length l).
Proof.
  induction l; simpl; congruence.
Qed.

Section Shapes.

Context {P : Platform}.

Lemma shape_arr_map {A B : Type} (f : A -> B) (a : ndarray A) :
  shape (arr_map f a) = shape a.
Proof. reflexivity. Qed.

Lemma size_arr_map {A B : Type} (f : A -> B) (a : ndarray A) :
  size (arr_map f a) = size a.
Proof. unfold size, arr_map; simpl; apply length_map. Qed.

Lemma size_np_where (cond : ndarray bool) (y : ndarray float) (other : float) :
  size cond = size y -> size (np_where cond y other) = size y.
Proof.
  unfold size, np_where; simpl; intros H.
  rewrite zip_with_length, H; apply Nat.min_id.
Qed.

Lemma size_np_empty_like (a : ndarray float) : size (np_empty_like a) = size a.
Proof.
  unfold np_empty_like, size; simpl.
  now rewrite length_map, length_seq.
Qed.

Lemma size_np_divide_where (num : float) (denom out : ndarray float) (mask : ndarray bool) :
  size mask = size denom -> size out = size denom ->
  size (np_divide_where num denom out mask) = size denom.
Proof.
  unfold size, np_divide_where; simpl; intros Hm Ho.
  rewrite zip_with_length, length_combine, Hm, Ho.
  now rewrite !Nat.min_id.
Qed.

Lemma full_nan_like_shaped (x : pyval) : shaped_like_input x (_full_nan_like x).
Proof.
  unfold shaped_like_input, _full_nan_like.
  destruct (np_asarray x) as [A|e]; simpl; [|reflexivity].
  eexists; repeat split. apply size_arr_map.
Qed.

Lemma power_law_decay_shaped (x : pyval) (a p b : float) :
  shaped_like_input x (power_law_decay x a p b).
Proof.
  unfold shaped_like_input, power_law_decay.
  destruct (np_asarray x) as [A|e]; simpl; [|reflexivity].
  eexists; repeat split.
  rewrite size_np_where; rewrite !size_arr_map; reflexivity.
Qed.

Lemma log_growth_shaped (x : pyval) (a b : float) :
  shaped_like_input x (log_growth x a b).
Proof.
  unfold shaped_like_input, log_growth.
  destruct (np_asarray x) as [A|e]; simpl; [|reflexivity].
  eexists; repeat split.
  rewrite size_np_where; rewrite !size_arr_map; reflexivity.
Qed.

Lemma kernel_exponential_shaped (x : pyval) (lam : float) :
  shaped_like_input x (kernel_exponential x lam).
Proof.
  unfold kernel_exponential.
  destruct (F64.le lam F64.zero); [apply full_nan_like_shaped|].
  unfold shaped_like_input.
  destruct (np_asarray x) as [A|e]; simpl; [|reflexivity].
  eexists; repeat split. apply size_arr_map.
Qed.

Lemma kernel_gaussian_shaped (x : pyval) (sigma : float) :
  shaped_like_input x (kernel_gaussian x sigma).
Proof.
  unfold kernel_gaussian.
  destruct (F64.le sigma F64.zero); [apply full_nan_like_shaped|].
  unfold shaped_like_input.
  destruct (np_asarray x) as [A|e]; simpl; [|reflexivity].
  eexists; repeat split. apply size_arr_map.
Qed.

Lemma kernel_powerlaw_shaped (x : pyval) (alpha p : float) :
  shaped_like_input x (kernel_powerlaw x alpha p).
Proof.
  unfold kernel_powerlaw.
  destruct (F64.le alpha F64.zero || F64.le p F64.zero); [apply full_nan_like_shaped|].
  unfold shaped_like_input.
  destruct (np_asarray x) as [A|e]; simpl; [|reflexivity].
  eexists; repeat split.
  rewrite size_np_where; rewrite !size_arr_map; reflexivity.
Qed.

Lemma kernel_rectangular_hyperbola_shaped (x : pyval) (alpha p : float) :
  shaped_like_input x (kernel_rectangular_hyperbola x alpha p).
Proof.
  unfold kernel_rectangular_hyperbola.
  destruct (F64.le alpha F64.zero || F64.le p F64.zero); [apply full_nan_like_shaped|].
  unfold shaped_like_input.
  destruct (np_asarray x) as [A|e]; simpl; [|reflexivity].
  eexists; repeat split.
  unfold rh_divide, rh_denom, rh_ratio.
  rewrite size_np_where.
  - rewrite size_np_divide_where;
      rewrite ?size_np_empty_like, ?size_arr_map; reflexivity.
  - rewrite size_np_divide_where;
      rewrite ?size_np_empty_like, ?size_arr_map; reflexivity.
Qed.

Lemma kernel_exppower_shaped (x : pyval) (lam q : float) :
  shaped_like_input x (kernel_exppower x lam q).
Proof.
  unfold kernel_exppower.
  destruct (F64.le lam F64.zero || F64.le q F64.zero); [apply full_nan_like_shaped|].
  unfold shaped_like_input.
  destruct (np_asarray x) as [A|e]; simpl; [|reflexivity].
  eexists; repeat split. apply size_arr_map.
Qed.

End Shapes.

(** Shaped like a well-formed input, the output is well formed. *)
Lemma wf_shaped {A B : Type} (a : ndarray A) (b : ndarray B) :
  wf_ndarray a = true -> shape b = shape a -> size b = size a -> wf_ndarray b = true.
Proof.
  unfold wf_ndarray. intros H Hs Hn. now rewrite Hs, Hn.
Qed.

(** ** The global parameter guard of the dispersal kernels *)

Section Guards.

Context {P : Platform}.

Lemma full_nan_like_all_nan (x : pyval) (A : ndarray float) :
  np_asarray x = Ok A ->
  exists B, _full_nan_like x = Ok B /\ all_nan_like A B.
Proof.
  intros HA. unfold _full_nan_like. rewrite HA. simpl.
  eexists; split; [reflexivity|].
  split; [reflexivity|]. apply map_const_repeat.
Qed.

End Guards.

(** C1. For each of the five dispersal kernels: when one of its scale or
    shape parameters is [<= 0], the kernel returns, on any input that
    converts to an array, an array of the input's shape whose every element
    is NaN, whatever the input's values. *)
Theorem C1_kernels_all_nan_when_guard_fails :
  forall (P : Platform) (x : pyval) (A : ndarray float),
    np_asarray x = Ok A ->
    (forall lam, F64.le lam F64.zero = true ->
       exists B, kernel_exponential x lam = Ok B /\ all_nan_like A B)
    /\ (forall sigma, F64.le sigma F64.zero = true ->
       exists B, kernel_gaussian x sigma = Ok B /\ all_nan_like A B)
    /\ (forall alpha p, F64.le alpha F64.zero = true \/ F64.le p F64.zero = true ->
       exists B, kernel_powerlaw x alpha p = Ok B /\ all_nan_like A B)
    /\ (forall alpha p, F64.le alpha F64.zero = true \/ F64.le p F64.zero = true ->
       exists B, kernel_rectangular_hyperbola x alpha p = Ok B /\ all_nan_like A B)
    /\ (forall lam q, F64.le lam F64.zero = true \/ F64.le q F64.zero = true ->
       exists B, kernel_exppower x lam q = Ok B /\ all_nan_like A B).
Proof.
  intros P x A HA.
  assert (forall u v, F64.le u F64.zero = true \/ F64.le v F64.zero = true ->
                      F64.le u F64.zero || F64.le v F64.zero = true) as Hor.
  { intros u v [H|H]; rewrite H; [reflexivity | apply orb_true_r]. }
  repeat split.
  - intros lam H. unfold kernel_exponential. rewrite H.
    now apply full_nan_like_all_nan.
  - intros sigma H. unfold kernel_gaussian. rewrite H.
    now apply full_nan_like_all_nan.
  - intros alpha p H. unfold kernel_powerlaw. rewrite (Hor _ _ H).
    now apply full_nan_like_all_nan.
  - intros alpha p H. unfold kernel_rectangular_hyperbola. rewrite (Hor _ _ H).
    now apply full_nan_like_all_nan.
  - intros lam q H. unfold kernel_exppower. rewrite (Hor _ _ H).
    now apply full_nan_like_all_nan.
Qed.

Lemma C1_witness :
  (exists B, kernel_exponential (P := Ref.platform) sample_input (Ref.lit "-2") = Ok B
             /\ all_nan_like sample_array B)
  /\ (exists B, kernel_gaussian (P := Ref.platform) sample_input (Ref.lit "0") = Ok B
             /\ all_nan_like sample_array B)
  /\ (exists B, kernel_powerlaw (P := Ref.platform) sample_input (Ref.lit "10") (Ref.lit "-0.5") = Ok B
             /\ all_nan_like sample_array B)
  /\ (exists B, kernel_rectangular_hyperbola (P := Ref.platform) sample_input
                  (Ref.lit "-inf") (Ref.lit "2") = Ok B
             /\ all_nan_like sample_array B)
  /\ (exists B, kernel_exppower (P := Ref.platform) sample_input (Ref.lit "3") (Ref.lit "0") = Ok B
             /\ all_nan_like sample_array B).
Proof.
  destruct (@C1_kernels_all_nan_when_guard_fails Ref.platform sample_input sample_array
              eq_refl) as (H1 & H2 & H3 & H4 & H5).
  repeat split.
  - apply H1; reflexivity.
  - apply H2; reflexivity.
  - apply H3; right; reflexivity.
  - apply H4; left; reflexivity.
  - apply H5; right; reflexivity.
Defined.

(** ** Shapes *)

(** C5. Each of the seven curve functions, for every parameter set and
    every input that converts to an array, returns an array of the input's
    shape (and raises what [np.asarray] raises when the input does not
    convert). *)
Theorem C5_output_shape_is_input_shape :
  forall (P : Platform) (x : pyval) (a p b lam sigma alpha q : float),
    shaped_like_input x (power_law_decay x a p b)
    /\ shaped_like_input x (log_growth x a b)
    /\ shaped_like_input x (kernel_exponential x lam)
    /\ shaped_like_input x (kernel_gaussian x sigma)
    /\ shaped_like_input x (kernel_powerlaw x alpha p)
    /\ shaped_like_input x (kernel_rectangular_hyperbola x alpha p)
    /\ shaped_like_input x (kernel_exppower x lam q).
Proof.
  intros. repeat split.
  - apply power_law_decay_shaped.
  - apply log_growth_shaped.
  - apply kernel_exponential_shaped.
  - apply kernel_gaussian_shaped.
  - apply kernel_powerlaw_shaped.
  - apply kernel_rectangular_hyperbola_shaped.
  - apply kernel_exppower_shaped.
Qed.

(** ** Values at a position *)

Lemma add_nan_l (y : float) : F64.add F64.nan y = F64.nan.
Proof. destruct y; reflexivity. Qed.

Lemma div_nan_l (y : float) : F64.div F64.nan y = F64.nan.
Proof. destruct y; reflexivity. Qed.

Lemma mul_nan_l (y : float) : F64.mul F64.nan y = F64.nan.
Proof. destruct y; reflexivity. Qed.

Lemma add_nan_r (x : float) : F64.add x F64.nan = F64.nan.
Proof. destruct x; reflexivity. Qed.

Lemma gt_nan_zero : F64.gt F64.nan F64.zero = false.
Proof. reflexivity. Qed.

(** On floats [d <= 0] excludes [d > 0], [d > 0] excludes [d <= 0], and a
    [d] that is not [<= 0] is not [== 0] either. *)
Lemma le_zero_not_gt (d : float) : F64.le d F64.zero = true -> F64.gt d F64.zero = false.
Proof. destruct d as [s|s| |s m e]; try destruct s; cbv; intros H; try discriminate; reflexivity. Qed.

Lemma gt_zero_not_le (d : float) : F64.gt d F64.zero = true -> F64.le d F64.zero = false.
Proof. destruct d as [s|s| |s m e]; try destruct s; cbv; intros H; try discriminate; reflexivity. Qed.

Lemma not_le_zero_not_eq (d : float) : F64.le d F64.zero = false -> F64.eq d F64.zero = false.
Proof. destruct d as [s|s| |s m e]; try destruct s; cbv; intros H; try discriminate; reflexivity. Qed.

Lemma gt_zero_ne (d : float) : F64.gt d F64.zero = true -> F64.ne d F64.zero = true.
Proof. destruct d as [s|s| |s m e]; try destruct s; cbv; intros H; try discriminate; reflexivity. Qed.

Lemma eq_zero_not_gt (d : float) : F64.eq d F64.zero = true -> F64.gt d F64.zero = false.
Proof. destruct d as [s|s| |s m e]; try destruct s; cbv; intros H; try discriminate; reflexivity. Qed.

Section Positions.

Context {P : Platform}.

Lemma at_pos_map (x : pyval) (A : ndarray float) (g : float -> float) (i : nat) (v : float) :
  np_asarray x = Ok A -> nth_error (data A) i = Some v ->
  at_pos (r <- np_asarray x ;; Ok (arr_map g r)) i (g v).
Proof.
  intros HA Hv. rewrite HA; simpl.
  eexists; split; [reflexivity|]. simpl. now apply nth_error_map_some.
Qed.

(** A formula [g] of the guarded quantity [d v], masked by [d v > 0]. *)
Lemma at_pos_where (A : ndarray float) (d g : float -> float) (i : nat) (v : float) :
  nth_error (data A) i = Some v ->
  nth_error
    (data (np_where (arr_map (fun t => F64.gt t F64.zero) (arr_map d A))
                    (arr_map g (arr_map d A)) F64.nan)) i
  = Some (if F64.gt (d v) F64.zero then g (d v) else F64.nan).
Proof.
  intros Hv. unfold np_where, arr_map; simpl.
  erewrite nth_error_zip_with; [reflexivity| |].
  - rewrite map_map. now apply (nth_error_map_some (fun t => F64.gt (d t) F64.zero)).
  - rewrite map_map. now apply (nth_error_map_some (fun t => g (d t))).
Qed.

Lemma power_law_decay_at (x : pyval) (A : ndarray float) (a p b : float) (i : nat) (v : float) :
  np_asarray x = Ok A -> nth_error (data A) i = Some v ->
  at_pos (power_law_decay x a p b) i
    (if F64.gt (F64.add v b) F64.zero
     then F64.mul a (np_power (F64.add v b) (F64.opp p)) else F64.nan).
Proof.
  intros HA Hv. unfold power_law_decay. rewrite HA; simpl.
  eexists; split; [reflexivity|].
  now apply (at_pos_where A (fun t => F64.add t b)
               (fun d => F64.mul a (np_power d (F64.opp p)))).
Qed.

Lemma log_growth_at (x : pyval) (A : ndarray float) (a b : float) (i : nat) (v : float) :
  np_asarray x = Ok A -> nth_error (data A) i = Some v ->
  at_pos (log_growth x a b) i
    (if F64.gt (F64.add v b) F64.zero
     then F64.mul a (np_log (F64.add v b)) else F64.nan).
Proof.
  intros HA Hv. unfold log_growth. rewrite HA; simpl.
  eexists; split; [reflexivity|].
  now apply (at_pos_where A (fun t => F64.add t b) (fun d => F64.mul a (np_log d))).
Qed.

Lemma kernel_exponential_at (x : pyval) (A : ndarray float) (lam : float) (i : nat) (v : float) :
  F64.le lam F64.zero = false ->
  np_asarray x = Ok A -> nth_error (data A) i = Some v ->
  at_pos (kernel_exponential x lam) i (np_exp (F64.div (F64.opp v) lam)).
Proof.
  intros Hg HA Hv. unfold kernel_exponential. rewrite Hg.
  now apply (@at_pos_map x A (fun t => np_exp (F64.div (F64.opp t) lam)) i v HA).
Qed.

Lemma kernel_gaussian_at (x : pyval) (A : ndarray float) (sigma : float) (i : nat) (v : float) :
  F64.le sigma F64.zero = false ->
  np_asarray x = Ok A -> nth_error (data A) i = Some v ->
  at_pos (kernel_gaussian x sigma) i
    (np_exp (F64.opp (F64.mul (F64.div v sigma) (F64.div v sigma)))).
Proof.
  intros Hg HA Hv. unfold kernel_gaussian. rewrite Hg.
  now apply (@at_pos_map x A
               (fun t => let u := F64.div t sigma in np_exp (F64.opp (F64.mul u u))) i v HA).
Qed.

Lemma kernel_powerlaw_at (x : pyval) (A : ndarray float) (alpha p : float) (i : nat) (v : float) :
  F64.le alpha F64.zero = false -> F64.le p F64.zero = false ->
  np_asarray x = Ok A -> nth_error (data A) i = Some v ->
  at_pos (kernel_powerlaw x alpha p) i
    (let base := F64.add F64.one (F64.div v alpha) in
     if F64.gt base F64.zero then np_power base (F64.opp p) else F64.nan).
Proof.
  intros Ha Hp HA Hv. unfold kernel_powerlaw. rewrite Ha, Hp, HA; simpl.
  eexists; split; [reflexivity|].
  now apply (at_pos_where A (fun t => F64.add F64.one (F64.div t alpha))
               (fun bs => np_power bs (F64.opp p))).
Qed.

Lemma kernel_exppower_at (x : pyval) (A : ndarray float) (lam q : float) (i : nat) (v : float) :
  F64.le lam F64.zero = false -> F64.le q F64.zero = false ->
  np_asarray x = Ok A -> nth_error (data A) i = Some v ->
  at_pos (kernel_exppower x lam q) i (np_exp (F64.opp (np_power (F64.div v lam) q))).
Proof.
  intros Hl Hq HA Hv. unfold kernel_exppower. rewrite Hl, Hq; simpl.
  now apply (@at_pos_map x A (fun t => np_exp (F64.opp (np_power (F64.div t lam) q))) i v HA).
Qed.

(** The buffer of [np.divide]: the quotient where [denom != 0], and the
    untouched content of the fresh buffer elsewhere. *)
Lemma rh_divide_at (A : ndarray float) (alpha p : float) (i : nat) (v : float) :
  nth_error (data A) i = Some v ->
  let d := F64.add F64.one (np_power (F64.div v alpha) p) in
  nth_error (data (rh_divide (rh_ratio A alpha) (rh_denom (rh_ratio A alpha) p))) i
  = Some (if F64.ne d F64.zero then F64.div F64.one d else uninit i).
Proof.
  intros Hv d.
  unfold rh_divide, rh_denom, rh_ratio, np_divide_where, np_empty_like, arr_map, size; simpl.
  rewrite !map_map, !length_map.
  erewrite (nth_error_zip_with _ _ _ i (a := (d, F64.ne d F64.zero)) (b := uninit i)).
  - reflexivity.
  - apply nth_error_combine_some.
    + now apply (nth_error_map_some
                   (fun t => F64.add F64.one (np_power (F64.div t alpha) p))).
    + now apply (nth_error_map_some
                   (fun t => F64.ne (F64.add F64.one (np_power (F64.div t alpha) p)) F64.zero)).
  - rewrite (nth_error_map_some uninit (seq 0 (List.length (data A))) i (a := i)).
    + reflexivity.
    + eapply nth_error_seq_some; [exact Hv | reflexivity].
Qed.

Lemma kernel_rectangular_hyperbola_at
      (x : pyval) (A : ndarray float) (alpha p : float) (i : nat) (v : float) :
  F64.le alpha F64.zero = false -> F64.le p F64.zero = false ->
  np_asarray x = Ok A -> nth_error (data A) i = Some v ->
  at_pos (kernel_rectangular_hyperbola x alpha p) i
    (let d := F64.add F64.one (np_power (F64.div v alpha) p) in
     if F64.gt d F64.zero then F64.div F64.one d else F64.nan).
Proof.
  intros Ha Hp HA Hv. unfold kernel_rectangular_hyperbola. rewrite Ha, Hp, HA.
  cbn [bind orb].
  eexists; split; [reflexivity|].
  unfold np_where; cbn [data].
  set (d := F64.add F64.one (np_power (F64.div v alpha) p)).
  erewrite (nth_error_zip_with _ _ _ i (a := F64.gt d F64.zero)
              (b := if F64.ne d F64.zero then F64.div F64.one d else uninit i)).
  - destruct (F64.gt d F64.zero) eqn:Hd; [|reflexivity].
    now rewrite (gt_zero_ne d Hd).
  - unfold rh_denom, rh_ratio, arr_map; simpl. rewrite !map_map.
    now apply (nth_error_map_some
                 (fun t => F64.gt (F64.add F64.one (np_power (F64.div t alpha) p)) F64.zero)).
  - rewrite (@rh_divide_at A alpha p i v Hv). reflexivity.
Qed.

End Positions.

(** ** The reference platform meets Annex F *)

Lemma Ref_annexF : AnnexF Ref.platform.
Proof.
  split.
  - reflexivity.
  - intros y Hy. destruct y as [s|s| |s m e]; try reflexivity.
    destruct s; discriminate Hy.
Qed.

(** ** NaN inputs *)

Lemma opp_nan : F64.opp F64.nan = F64.nan.
Proof. reflexivity. Qed.

Lemma guard_passes (u v : float) :
  F64.le u F64.zero || F64.le v F64.zero = false ->
  F64.le u F64.zero = false /\ F64.le v F64.zero = false.
Proof. apply orb_false_elim. Qed.

(** C9. Whenever the global parameter guard of a curve (if it has one)
    passes, a NaN at a position of the input gives NaN at the same position
    of the output, for each of the seven curve functions. *)
Theorem C9_nan_input_gives_nan_output :
  forall (P : Platform), AnnexF P ->
  forall (x : pyval) (A : ndarray float) (i : nat),
    np_asarray x = Ok A -> nth_error (data A) i = Some F64.nan ->
    (forall a p b, at_pos (power_law_decay x a p b) i F64.nan)
    /\ (forall a b, at_pos (log_growth x a b) i F64.nan)
    /\ (forall lam, F64.le lam F64.zero = false ->
          at_pos (kernel_exponential x lam) i F64.nan)
    /\ (forall sigma, F64.le sigma F64.zero = false ->
          at_pos (kernel_gaussian x sigma) i F64.nan)
    /\ (forall alpha p, F64.le alpha F64.zero || F64.le p F64.zero = false ->
          at_pos (kernel_powerlaw x alpha p) i F64.nan)
    /\ (forall alpha p, F64.le alpha F64.zero || F64.le p F64.zero = false ->
          at_pos (kernel_rectangular_hyperbola x alpha p) i F64.nan)
    /\ (forall lam q, F64.le lam F64.zero || F64.le q F64.zero = false ->
          at_pos (kernel_exppower x lam q) i F64.nan).
Proof.
  intros P HF x A i HA Hi. repeat split.
  - intros a p b. pose proof (@power_law_decay_at P x A a p b i _ HA Hi) as H.
    now rewrite add_nan_l, gt_nan_zero in H.
  - intros a b. pose proof (@log_growth_at P x A a b i _ HA Hi) as H.
    now rewrite add_nan_l, gt_nan_zero in H.
  - intros lam Hg. pose proof (@kernel_exponential_at P x A lam i _ Hg HA Hi) as H.
    now rewrite opp_nan, div_nan_l, exp_nan in H.
  - intros sigma Hg. pose proof (@kernel_gaussian_at P x A sigma i _ Hg HA Hi) as H.
    now rewrite div_nan_l, mul_nan_l, opp_nan, exp_nan in H.
  - intros alpha p Hg. destruct (guard_passes _ _ Hg) as [Ha Hp].
    pose proof (@kernel_powerlaw_at P x A alpha p i _ Ha Hp HA Hi) as H.
    cbv zeta in H. now rewrite div_nan_l, add_nan_r, gt_nan_zero in H.
  - intros alpha p Hg. destruct (guard_passes _ _ Hg) as [Ha Hp].
    pose proof (@kernel_rectangular_hyperbola_at P x A alpha p i _ Ha Hp HA Hi) as H.
    cbv zeta in H.
    now rewrite div_nan_l, (power_nan _ (not_le_zero_not_eq _ Hp)),
      add_nan_r, gt_nan_zero in H.
  - intros lam q Hg. destruct (guard_passes _ _ Hg) as [Hl Hq].
    pose proof (@kernel_exppower_at P x A lam q i _ Hl Hq HA Hi) as H.
    now rewrite div_nan_l, (power_nan _ (not_le_zero_not_eq _ Hq)), opp_nan, exp_nan in H.
Qed.

Lemma C9_witness :
  at_pos (power_law_decay (P := Ref.platform) nan_input
            (Ref.lit "2") (Ref.lit "1.5") (Ref.lit "0")) 1 F64.nan
  /\ at_pos (log_growth (P := Ref.platform) nan_input (Ref.lit "1") (Ref.lit "1")) 1 F64.nan
  /\ at_pos (kernel_exponential (P := Ref.platform) nan_input (Ref.lit "10")) 1 F64.nan
  /\ at_pos (kernel_gaussian (P := Ref.platform) nan_input (Ref.lit "10")) 1 F64.nan
  /\ at_pos (kernel_powerlaw (P := Ref.platform) nan_input (Ref.lit "10") (Ref.lit "2")) 1 F64.nan
  /\ at_pos (kernel_rectangular_hyperbola (P := Ref.platform) nan_input
               (Ref.lit "10") (Ref.lit "2")) 1 F64.nan
  /\ at_pos (kernel_exppower (P := Ref.platform) nan_input (Ref.lit "10") (Ref.lit "1.5")) 1 F64.nan.
Proof.
  destruct (@C9_nan_input_gives_nan_output Ref.platform Ref_annexF nan_input nan_array 1
              eq_refl eq_refl) as (H1 & H2 & H3 & H4 & H5 & H6 & H7).
  repeat split.
  - apply H1.
  - apply H2.
  - apply H3; reflexivity.
  - apply H4; reflexivity.
  - apply H5; reflexivity.
  - apply H6; reflexivity.
  - apply H7; reflexivity.
Defined.

(** ** The elementwise domain guard of the decay and growth curves *)

(** C2, as the code has it.  At each position, with [d = x + b]: the
    output of [power_law_decay] and of [log_growth] is NaN whenever [d > 0]
    does not hold, which covers [d <= 0] and a NaN [d]; where [d > 0] holds
    the output is the binary64 value of [a * d ** (-p)], respectively
    [a * log(d)]. *)
Theorem C2_domain_guard :
  forall (P : Platform) (x : pyval) (A : ndarray float) (i : nat) (v a p b : float),
    np_asarray x = Ok A -> nth_error (data A) i = Some v ->
    (F64.gt (F64.add v b) F64.zero = false ->
       at_pos (power_law_decay x a p b) i F64.nan
       /\ at_pos (log_growth x a b) i F64.nan)
    /\ (F64.le (F64.add v b) F64.zero = true ->
       at_pos (power_law_decay x a p b) i F64.nan
       /\ at_pos (log_growth x a b) i F64.nan)
    /\ (F64.gt (F64.add v b) F64.zero = true ->
       at_pos (power_law_decay x a p b) i
         (F64.mul a (np_power (F64.add v b) (F64.opp p)))
       /\ at_pos (log_growth x a b) i (F64.mul a (np_log (F64.add v b)))).
Proof.
  intros P x A i v a p b HA Hv.
  pose proof (@power_law_decay_at P x A a p b i v HA Hv) as Hd.
  pose proof (@log_growth_at P x A a b i v HA Hv) as Hl.
  assert (F64.gt (F64.add v b) F64.zero = false ->
          at_pos (power_law_decay x a p b) i F64.nan
          /\ at_pos (log_growth x a b) i F64.nan) as Hnan.
  { intros H. rewrite H in Hd, Hl. now split. }
  split; [exact Hnan | split].
  - intros H. apply Hnan. now apply le_zero_not_gt.
  - intros H. rewrite H in Hd, Hl. now split.
Qed.

Lemma C2_witness :
  (at_pos (power_law_decay (P := Ref.platform) sample_input
             (Ref.lit "1") (Ref.lit "1") (Ref.lit "0")) 1 F64.nan
   /\ at_pos (log_growth (P := Ref.platform) sample_input (Ref.lit "1") (Ref.lit "0")) 1 F64.nan)
  /\ (at_pos (power_law_decay (P := Ref.platform) sample_input
                (Ref.lit "1") (Ref.lit "1") (Ref.lit "0")) 2
        (F64.mul (Ref.lit "1")
           (Ref.pow (F64.add (Ref.lit "2.5") (Ref.lit "0")) (F64.opp (Ref.lit "1"))))
      /\ at_pos (log_growth (P := Ref.platform) sample_input (Ref.lit "1") (Ref.lit "0")) 2
           (F64.mul (Ref.lit "1") (Ref.log (F64.add (Ref.lit "2.5") (Ref.lit "0"))))).
Proof.
  split.
  - apply (@C2_domain_guard Ref.platform sample_input sample_array 1
             (Ref.lit "-1") (Ref.lit "1") (Ref.lit "1") (Ref.lit "0") eq_refl eq_refl).
    reflexivity.
  - apply (@C2_domain_guard Ref.platform sample_input sample_array 2
             (Ref.lit "2.5") (Ref.lit "1") (Ref.lit "1") (Ref.lit "0") eq_refl eq_refl).
    reflexivity.
Defined.

(** C2 as the spec states it fails twice.  On the input [[nan]] the output
    of [power_law_decay(x, 1, 1, 0)] is NaN although [x + b <= 0] is false
    there; and on [[8.0]], with [a] the largest finite float and [b = 0],
    [x + b > 0] holds and [log_growth] returns [inf], which is not finite. *)
Lemma C2_counterexample :
  (power_law_decay (P := Ref.platform) (PyList [PyFloat F64.nan])
     (Ref.lit "1") (Ref.lit "1") (Ref.lit "0")
   = Ok (mk_ndarray [1%nat] [F64.nan])
   /\ F64.le (F64.add F64.nan (Ref.lit "0")) F64.zero = false)
  /\ (log_growth (P := Ref.platform) (PyList [PyFloat (Ref.lit "8")])
        F64.max_float (Ref.lit "0")
      = Ok (mk_ndarray [1%nat] [F64.pinf])
      /\ F64.gt (F64.add (Ref.lit "8") (Ref.lit "0")) F64.zero = true
      /\ F64.is_finite F64.max_float = true
      /\ F64.is_finite F64.pinf = false).
Proof.
  vm_compute. repeat split.
Qed.

(** ** The exponential-power kernel at [q = 2] *)

(** On a platform whose [np.power(t, 2.0)] is the correctly rounded square
    [t * t], the exponential-power kernel with [q = 2] is the Gaussian
    kernel, value for value.  How closely the two agree elsewhere depends on
    the rounding of the platform's [pow] and [exp], which the interface
    leaves open. *)
Lemma exppower_two_is_gaussian (P : Platform) :
  (forall t, np_power t (F64.of_Z 2) = F64.mul t t) ->
  forall (x : pyval) (scale : float),
    kernel_exppower x scale (F64.of_Z 2) = kernel_gaussian x scale.
Proof.
  intros Hsq x scale. unfold kernel_exppower, kernel_gaussian.
  replace (F64.le (F64.of_Z 2) F64.zero) with false by reflexivity.
  rewrite orb_false_r.
  destruct (F64.le scale F64.zero); [reflexivity|].
  destruct (np_asarray x) as [A|e]; [|reflexivity].
  simpl. unfold arr_map. do 2 f_equal.
  apply map_ext. intros v. now rewrite Hsq.
Qed.

(** ** The rectangular hyperbola's denominator *)

(** C4. With [alpha > 0] and [p > 0], at each position with denominator
    [d = 1 + (r / alpha) ** p]: [np.divide] writes the quotient [1 / d] only
    where [d != 0] and leaves the fresh buffer untouched where [d == 0]; and
    wherever [d > 0] does not hold, a zero [d] included, the kernel's output
    is NaN (so neither an infinity nor the buffer's content). *)
Theorem C4_rectangular_hyperbola_denominator :
  forall (P : Platform) (x : pyval) (A : ndarray float) (alpha p : float) (i : nat) (r : float),
    F64.gt alpha F64.zero = true -> F64.gt p F64.zero = true ->
    np_asarray x = Ok A -> nth_error (data A) i = Some r ->
    (F64.ne (F64.add F64.one (np_power (F64.div r alpha) p)) F64.zero = true ->
       nth_error (data (rh_divide (rh_ratio A alpha) (rh_denom (rh_ratio A alpha) p))) i
       = Some (F64.div F64.one (F64.add F64.one (np_power (F64.div r alpha) p))))
    /\ (F64.eq (F64.add F64.one (np_power (F64.div r alpha) p)) F64.zero = true ->
       nth_error (data (rh_divide (rh_ratio A alpha) (rh_denom (rh_ratio A alpha) p))) i
       = Some (uninit i)
       /\ at_pos (kernel_rectangular_hyperbola x alpha p) i F64.nan)
    /\ (F64.gt (F64.add F64.one (np_power (F64.div r alpha) p)) F64.zero = false ->
       at_pos (kernel_rectangular_hyperbola x alpha p) i F64.nan).
Proof.
  intros P x A alpha p i r Ha Hp HA Hr.
  pose proof (@rh_divide_at P A alpha p i r Hr) as Hbuf. cbv zeta in Hbuf.
  pose proof (@kernel_rectangular_hyperbola_at P x A alpha p i r
                (gt_zero_not_le _ Ha) (gt_zero_not_le _ Hp) HA Hr) as Hout.
  cbv zeta in Hout.
  split; [|split].
  - intros H. now rewrite H in Hbuf.
  - intros H. split.
    + unfold F64.ne in Hbuf. unfold F64.eq in H. now rewrite H in Hbuf.
    + now rewrite (eq_zero_not_gt _ H) in Hout.
  - intros H. now rewrite H in Hout.
Qed.

Lemma C4_witness :
  nth_error
    (data (rh_divide (P := Ref.platform)
             (rh_ratio zero_denominator_array (Ref.lit "10"))
             (rh_denom (P := Ref.platform)
                (rh_ratio zero_denominator_array (Ref.lit "10")) (Ref.lit "1")))) 0
  = Some (Ref.garbage 0)
  /\ at_pos (kernel_rectangular_hyperbola (P := Ref.platform) zero_denominator_input
               (Ref.lit "10") (Ref.lit "1")) 0 F64.nan.
Proof.
  apply (@C4_rectangular_hyperbola_denominator Ref.platform zero_denominator_input
           zero_denominator_array (Ref.lit "10") (Ref.lit "1") 0 (Ref.lit "-10")
           eq_refl eq_refl eq_refl eq_refl).
  vm_compute. reflexivity.
Defined.

(** ** Coercion of bound parameters *)

Section Coercion.

Context {P : Platform}.

Lemma coerce_cons (k : string) (v : pyval) (ps : list (string * pyval)) :
  coerce ((k, v) :: ps)
  = (f <- _value v ;; r <- coerce ps ;; Ok ((k, f) :: r)).
Proof.
  unfold coerce; simpl. destruct (_value v); reflexivity.
Qed.

(** [_value] raises its own [TypeError], which names the type of [v], or
    lets an [OverflowError] of [float] through. *)
Lemma value_raises (v : pyval) (e : exn) :
  _value v = Raise e ->
  e = TypeError (cannot_convert v) \/ exists m, e = OverflowError m.
Proof.
  unfold _value. destruct (py_float (getattr_value v)) as [f|[m|m|m]];
    intros H; inversion H; subst; eauto.
Qed.

(** It raises the [TypeError] exactly when [float] refuses the raw value
    with a [TypeError] or a [ValueError]. *)
Lemma value_type_error (v : pyval) :
  (exists m, py_float (getattr_value v) = Raise (TypeError m)
             \/ py_float (getattr_value v) = Raise (ValueError m)) ->
  _value v = Raise (TypeError (cannot_convert v)).
Proof.
  unfold _value. intros [m [H|H]]; rewrite H; reflexivity.
Qed.

Lemma coerce_first_failure (ps : list (string * pyval)) (v : pyval) (e : exn) :
  first_failure ps v e -> coerce ps = Raise e.
Proof.
  intros (pre & k & post & -> & Hpre & Hv).
  induction Hpre as [|[k' v'] pre [f Hf] _ IH]; cbn [app].
  - rewrite coerce_cons, Hv. reflexivity.
  - rewrite coerce_cons. cbn [snd] in Hf. rewrite Hf, IH. reflexivity.
Qed.


Lemma coerce_keys (ps : list (string * pyval)) (kw : kwargs) :
  coerce ps = Ok kw -> map fst kw = map fst ps.
Proof.
  revert kw; induction ps as [|[k v] ps IH]; intros kw.
  - intros H; inversion H; reflexivity.
  - rewrite coerce_cons. destruct (_value v) as [f|e]; simpl; [|discriminate].
    destruct (coerce ps) as [r|e]; simpl; [|discriminate].
    intros H; inversion H; subst; simpl. now rewrite (IH r eq_refl).
Qed.

Lemma coerce_values (ps : list (string * pyval)) (kw : kwargs) :
  coerce ps = Ok kw -> Forall2 (fun kv kf => _value (snd kv) = Ok (snd kf)) ps kw.
Proof.
  revert kw; induction ps as [|[k v] ps IH]; intros kw.
  - intros H; inversion H; constructor.
  - rewrite coerce_cons. destruct (_value v) as [f|e] eqn:Hv; simpl; [|discriminate].
    destruct (coerce ps) as [r|e]; simpl; [|discriminate].
    intros H; inversion H; subst. constructor; [exact Hv | now apply IH].
Qed.

(** The loop of [params_str] against the comprehension of [__call__]. *)
Lemma params_str_loop_coerce (precision : nat) (ps : list (string * pyval)) (items : list string) :
  params_str_loop precision ps items
  = (kw <- coerce ps ;; Ok (items ++ map (render precision) kw)).
Proof.
  revert items; induction ps as [|[k v] ps IH]; intros items.
  - simpl. now rewrite app_nil_r.
  - rewrite coerce_cons. simpl. destruct (_value v) as [f|e]; simpl; [|reflexivity].
    rewrite IH. destruct (coerce ps) as [r|e]; simpl; [|reflexivity].
    now rewrite <- app_assoc.
Qed.

Lemma params_str_coerce (precision : nat) (sep : string) (c : BoundCurve) :
  params_str precision sep c
  = (kw <- coerce (parameters c) ;; Ok (String.concat sep (map (render precision) kw))).
Proof.
  unfold params_str. rewrite params_str_loop_coerce.
  destruct (coerce (parameters c)); reflexivity.
Qed.

Lemma call_coerce (c : BoundCurve) (x : pyval) :
  __call__ c x = (kw <- coerce (parameters c) ;; fn c x kw).
Proof. reflexivity. Qed.

(** With the coerced parameters of [c], [fn] finds each keyword and runs
    the curve function, which shapes its output like the input. *)
Lemma fn_shaped (c : BoundCurve) (kw : kwargs) (x : pyval) :
  coerce (parameters c) = Ok kw -> shaped_like_input x (fn c x kw).
Proof.
  intros H. pose proof (coerce_keys _ H) as Hk.
  destruct c; simpl in Hk;
    repeat (destruct kw as [|[? ?] kw]; try discriminate Hk);
    simpl in Hk; inversion Hk; subst; simpl.
  - apply power_law_decay_shaped.
  - apply log_growth_shaped.
  - apply kernel_exponential_shaped.
  - apply kernel_gaussian_shaped.
  - apply kernel_powerlaw_shaped.
  - apply kernel_exppower_shaped.
  - apply kernel_rectangular_hyperbola_shaped.
Qed.

End Coercion.

(** ** Conversion failures *)

(** C3, as the code has it.  For every bound curve and every input:
    when the first bound parameter (in declared order) that [float] refuses
    is [v], [evaluate] raises the [TypeError] of [_value], whose message
    names the type of [v]; the input plays no part and no array is returned.
    The input itself is not coerced by [_value]: it goes to [np.asarray],
    and when that raises, [evaluate] raises the same exception. *)
Theorem C3_conversion_failures_propagate :
  forall (P : Platform) (c : BoundCurve) (x : pyval),
    (forall pre k v post,
        parameters c = pre ++ (k, v) :: post ->
        Forall (fun kv => exists f, _value (snd kv) = Ok f) pre ->
        float_refuses (getattr_value v) ->
        __call__ c x = Raise (TypeError (cannot_convert v)))
    /\ (forall kw e,
        coerce (parameters c) = Ok kw ->
        np_asarray x = Raise e ->
        __call__ c x = Raise e).
Proof.
  intros P c x. split.
  - intros pre k v post Hps Hpre Hv.
    rewrite call_coerce.
    rewrite (@coerce_first_failure P (parameters c) v (TypeError (cannot_convert v))).
    + reflexivity.
    + exists pre, k, post. repeat split; auto. now apply value_type_error.
  - intros kw e Hkw Hx.
    rewrite call_coerce, Hkw. simpl.
    pose proof (@fn_shaped P c kw x Hkw) as H.
    unfold shaped_like_input in H. now rewrite Hx in H.
Qed.

Lemma C3_witness :
  __call__ (P := Ref.platform) (PowerLawKernel (PyFloat (Ref.lit "10")) PyNone) sample_input
  = Raise (TypeError (cannot_convert PyNone))
  /\ __call__ (P := Ref.platform) (ExponentialKernel (PyFloat (Ref.lit "2")))
       (PyList [PyFloat (Ref.lit "1"); PyList []])
     = Raise inhomogeneous.
Proof.
  split.
  - apply (proj1 (@C3_conversion_failures_propagate Ref.platform
                    (PowerLawKernel (PyFloat (Ref.lit "10")) PyNone) sample_input)
             [("alpha", PyFloat (Ref.lit "10"))] "p" PyNone []).
    + reflexivity.
    + constructor; [eexists; reflexivity | constructor].
    + eexists; left; reflexivity.
  - apply (proj2 (@C3_conversion_failures_propagate Ref.platform
                    (ExponentialKernel (PyFloat (Ref.lit "2")))
                    (PyList [PyFloat (Ref.lit "1"); PyList []]))
             [("lam", Ref.lit "2")]).
    + reflexivity.
    + reflexivity.
Defined.

(** C3 as the spec states it fails on the input.  [None] is neither a
    number nor a holder of one, yet [np.asarray(None, dtype=float)] is
    [array(nan)]: a [LogGrowth] evaluates it to a NaN array and raises
    nothing.  And the string ['abc'] as input raises NumPy's [ValueError],
    which is not the [TypeError] of [_value] and names no type. *)
Lemma C3_counterexample :
  __call__ (P := Ref.platform) (LogGrowth (PyFloat (Ref.lit "1")) (PyFloat (Ref.lit "1"))) PyNone
  = Ok (mk_ndarray [] [F64.nan])
  /\ __call__ (P := Ref.platform) (ExponentialKernel (PyFloat (Ref.lit "2"))) (PyStr "abc")
     = Raise (ValueError "could not convert string to float: 'abc'").
Proof.
  split; reflexivity.
Qed.



(** ** Strings *)

Lemma string_length_append (s t : string) :
  String.length (s ++ t) = (String.length s + String.length t)%nat.
Proof. induction s; simpl; congruence. Qed.

Lemma has_char_append (c : ascii) (s t : string) :
  has_char c (s ++ t) = has_char c s || has_char c t.
Proof.
  induction s as [|a s IH]; simpl; [reflexivity|].
  now rewrite IH, orb_assoc.
Qed.

Lemma all_digits_append (s t : string) :
  all_digits (s ++ t) = all_digits s && all_digits t.
Proof.
  induction s as [|a s IH]; simpl; [reflexivity|].
  now rewrite IH, andb_assoc.
Qed.

Lemma prefix_has_char (c : ascii) (needle hay : string) :
  String.prefix needle hay = true -> has_char c needle = true -> has_char c hay = true.
Proof.
  revert hay; induction needle as [|a n IH]; intros hay Hp Hc; [discriminate Hc|].
  destruct hay as [|b h]; [discriminate Hp|].
  simpl in Hp. destruct (ascii_dec a b) as [->|]; [|discriminate Hp].
  simpl in Hc |- *. destruct (Ascii.eqb b c); [reflexivity|].
  simpl in Hc |- *. now apply IH.
Qed.

Lemma substring_has_char (c : ascii) (needle hay : string) :
  is_substring needle hay = true -> has_char c needle = true -> has_char c hay = true.
Proof.
  intros Hs Hc. induction hay as [|b h IH].
  - simpl in Hs. destruct needle; [discriminate Hc | discriminate Hs].
  - change (is_substring needle (String b h))
      with (if String.prefix needle (String b h) then true else is_substring needle h) in Hs.
    destruct (String.prefix needle (String b h)) eqn:Hp.
    + now apply (prefix_has_char c needle).
    + simpl. rewrite (IH Hs). apply orb_true_r.
Qed.

Lemma length_fixed_digits (k : nat) (r : N) : String.length (fixed_digits k r) = k.
Proof.
  revert r; induction k as [|k IH]; intros r; simpl; [reflexivity|].
  rewrite string_length_append, IH. simpl. lia.
Qed.

Lemma digit_char_is_digit (d : N) : (d < 10)%N -> is_digit (digit_char d) = true.
Proof.
  intros H. unfold is_digit, digit_char.
  rewrite N_ascii_embedding by lia.
  apply andb_true_intro; split; apply N.leb_le; lia.
Qed.

Lemma all_digits_fixed_digits (k : nat) (r : N) : all_digits (fixed_digits k r) = true.
Proof.
  revert r; induction k as [|k IH]; intros r; simpl; [reflexivity|].
  rewrite all_digits_append, IH. simpl.
  rewrite digit_char_is_digit; [reflexivity|].
  apply N.mod_lt. discriminate.
Qed.

Lemma all_digits_string_of_uint (d : Decimal.uint) :
  all_digits (NilEmpty.string_of_uint d) = true.
Proof. induction d; simpl; auto. Qed.

Lemma all_digits_string_of_N (n : N) : all_digits (string_of_N n) = true.
Proof.
  unfold string_of_N, NilZero.string_of_uint.
  destruct (N.to_uint n); try reflexivity; apply all_digits_string_of_uint.
Qed.

(** *** Digits read back

    The digits [format_fixed] writes denote the number it was given. *)

Lemma decimal_acc_append (s t : string) (acc : N) :
  decimal_acc (s ++ t) acc = decimal_acc t (decimal_acc s acc).
Proof. revert acc; induction s as [|c s IH]; intros acc; simpl; [reflexivity|apply IH]. Qed.

Lemma digit_value_digit_char (d : N) : (d < 10)%N -> digit_value (digit_char d) = d.
Proof.
  intros H. unfold digit_value, digit_char. rewrite N_ascii_embedding by lia. lia.
Qed.

Lemma decimal_acc_fixed_digits (k : nat) (r acc : N) :
  decimal_acc (fixed_digits k r) acc = (acc * 10 ^ N.of_nat k + r mod 10 ^ N.of_nat k)%N.
Proof.
  revert r acc; induction k as [|k IH]; intros r acc.
  - simpl. rewrite N.mod_1_r. lia.
  - cbn [fixed_digits]. rewrite decimal_acc_append, IH. cbn [decimal_acc].
    rewrite digit_value_digit_char by (apply N.mod_lt; discriminate).
    rewrite Nnat.Nat2N.inj_succ, N.pow_succ_r'.
    rewrite (N.Div0.mod_mul_r r 10 (10 ^ N.of_nat k)). lia.
Qed.

Lemma decimal_acc_string_of_uint_pos (d : Decimal.uint) (acc : positive) :
  decimal_acc (NilEmpty.string_of_uint d) (Npos acc) = Npos (Pos.of_uint_acc d acc).
Proof.
  revert acc; induction d; intros acc; cbn [NilEmpty.string_of_uint decimal_acc Pos.of_uint_acc];
    try reflexivity; rewrite <- IHd; f_equal;
    match goal with |- context [digit_value ?c] =>
      let v := eval vm_compute in (digit_value c) in change (digit_value c) with v end.
  all: lia.
Qed.

Lemma decimal_acc_string_of_uint (d : Decimal.uint) :
  decimal_acc (NilEmpty.string_of_uint d) 0 = Pos.of_uint d.
Proof.
  induction d; cbn [NilEmpty.string_of_uint decimal_acc Pos.of_uint];
    try reflexivity; try exact IHd;
    unfold digit_value; cbn [N_of_ascii];
    match goal with |- decimal_acc _ ?a = _ =>
      let v := eval vm_compute in a in change a with v end;
    apply decimal_acc_string_of_uint_pos.
Qed.

Lemma decimal_value_string_of_N (n : N) : decimal_value (string_of_N n) = n.
Proof.
  unfold decimal_value, string_of_N, NilZero.string_of_uint.
  rewrite <- (DecimalN.Unsigned.of_to n) at 2. unfold N.of_uint.
  destruct (N.to_uint n) eqn:E; try (rewrite <- decimal_acc_string_of_uint; reflexivity).
Qed.

(** [string_of_N] writes no zero in front of another digit. *)
Lemma nzhead_not_D0 (d d' : Decimal.uint) : Decimal.nzhead d <> Decimal.D0 d'.
Proof. induction d; cbn [Decimal.nzhead]; try discriminate; exact IHd. Qed.

Lemma canonical_string_of_N (n : N) : canonical_integer (string_of_N n).
Proof.
  split; [apply all_digits_string_of_N|].
  unfold string_of_N.
  pose proof (DecimalN.Unsigned.to_of (N.to_uint n)) as H.
  rewrite DecimalN.Unsigned.of_to in H.
  destruct (N.to_uint n) as [|d|d|d|d|d|d|d|d|d|d] eqn:E;
    cbn [NilZero.string_of_uint NilEmpty.string_of_uint];
    try (left; discriminate).
  right. unfold Decimal.unorm in H. cbn [Decimal.nzhead] in H.
  destruct (Decimal.nzhead d) eqn:Hn; try discriminate H.
  - injection H as ->. reflexivity.
  - exfalso. exact (@nzhead_not_D0 _ _ Hn).
Qed.

(** [scaled_round] is rounding to nearest, ties to even, of the exact
    magnitude [m * 2^e] scaled by [10^precision]. *)
Lemma scaled_round_nearest (precision : nat) (m : positive) (e : Z) :
  nearest_even (Zpos m * 2 ^ Z.max e 0 * 10 ^ Z.of_nat precision) (2 ^ Z.max (- e) 0)
               (Z.of_N (scaled_round precision m e)).
Proof.
  unfold nearest_even, scaled_round.
  assert (Z.of_N (N.pos m * 10 ^ N.of_nat precision) = Zpos m * 10 ^ Z.of_nat precision)%Z
    as Hnum by (rewrite N2Z.inj_mul, N2Z.inj_pow, nat_N_Z; reflexivity).
  set (num := (N.pos m * 10 ^ N.of_nat precision)%N) in *.
  destruct e as [|k|k].
  - cbn [Z.max Z.compare Z.opp Z.to_N]. rewrite N.pow_0_r, Z.pow_0_r, N.mul_1_r, Hnum. lia.
  - replace (Z.max (Z.pos k) 0) with (Z.pos k) by lia.
    replace (Z.max (- Z.pos k) 0) with 0%Z by lia.
    rewrite Z.pow_0_r, N2Z.inj_mul, N2Z.inj_pow, Hnum. cbn [Z.to_N].
    change (Z.of_N 2) with 2%Z. change (Z.of_N (N.pos k)) with (Z.pos k).
    split; [|intros H]; lia.
  - replace (Z.max (Z.neg k) 0) with 0%Z by lia.
    replace (Z.max (- Z.neg k) 0) with (Z.pos k) by lia.
    rewrite Z.pow_0_r, Z.mul_1_r, <- Hnum.
    set (den := (2 ^ N.pos k)%N).
    assert (Z.of_N den = 2 ^ Z.pos k)%Z as Hden
      by (unfold den; rewrite N2Z.inj_pow; reflexivity).
    rewrite <- Hden.
    assert (den <> 0)%N as Hnz by (unfold den; apply N.pow_nonzero; discriminate).
    pose proof (N.div_mod num den Hnz) as Hdm.
    pose proof (N.mod_lt num den Hnz) as Hlt.
    set (q := (num / den)%N) in *. set (r := (num mod den)%N) in *.
    clearbody q r den num.
    assert (Z.of_N q * Z.of_N den - Z.of_N num = - Z.of_N r)%Z as Hq by lia.
    assert (Z.of_N (q + 1) * Z.of_N den - Z.of_N num = Z.of_N den - Z.of_N r)%Z as Hq1
      by (rewrite N2Z.inj_add; change (Z.of_N 1) with 1%Z; lia).
    assert (Z.even (Z.of_N q) = N.even q) as Hev' by (destruct q; reflexivity).
    destruct (2 * r ?= den)%N eqn:Hc.
    + apply N.compare_eq_iff in Hc.
      destruct (N.even q) eqn:Hev.
      * rewrite Hq. split; [lia|]. intros _. exact Hev'.
      * rewrite Hq1. split; [lia|]. intros _.
        rewrite N2Z.inj_add, Z.even_add, Hev'. reflexivity.
    + pose proof (proj1 (N.compare_lt_iff _ _) Hc) as Hc'.
      rewrite Hq. split; [lia|]. intros H. exfalso. lia.
    + pose proof (proj1 (N.compare_gt_iff _ _) Hc) as Hc'.
      rewrite Hq1. split; [lia|]. intros H. exfalso. lia.
Qed.

Lemma point_string_text (precision : nat) (n : N) :
  exists ip fp,
    point_string precision n
    = (ip ++ match precision with O => "" | _ => "." ++ fp end)%string
    /\ canonical_integer ip
    /\ all_digits fp = true
    /\ String.length fp = precision
    /\ decimal_value (ip ++ fp) = n.
Proof.
  exists (string_of_N (n / 10 ^ N.of_nat precision)),
         (fixed_digits precision (n mod 10 ^ N.of_nat precision)).
  split; [reflexivity|]. split; [apply canonical_string_of_N|].
  split; [apply all_digits_fixed_digits|]. split; [apply length_fixed_digits|].
  unfold decimal_value. rewrite decimal_acc_append.
  fold (decimal_value (string_of_N (n / 10 ^ N.of_nat precision))).
  rewrite decimal_value_string_of_N, decimal_acc_fixed_digits.
  rewrite N.Div0.mod_mod.
  pose proof (N.div_mod n (10 ^ N.of_nat precision)) as H.
  rewrite (N.mul_comm (n / _)). symmetry. apply H.
  apply N.pow_nonzero. discriminate.
Qed.

(** What [format_fixed] prints is the float in fixed-point notation. *)
Lemma format_fixed_is_fixed_point (precision : nat) (f : float) :
  fixed_point_of precision f (format_fixed precision f).
Proof.
  destruct f as [s|s| |s m e]; cbn [fixed_point_of format_fixed].
  - destruct (point_string_text precision 0) as (ip & fp & -> & H1 & H2 & H3 & H4).
    exists ip, fp. split; [destruct s; reflexivity|]. repeat (split; [assumption|]).
    rewrite H4. unfold nearest_even. cbn. split; [lia|discriminate].
  - destruct s; reflexivity.
  - reflexivity.
  - destruct (point_string_text precision (scaled_round precision m e))
      as (ip & fp & -> & H1 & H2 & H3 & H4).
    exists ip, fp. split; [destruct s; reflexivity|]. repeat (split; [assumption|]).
    rewrite H4. apply scaled_round_nearest.
Qed.

(** *** Fixed-point notation is unique

    Two texts that are the same float in fixed-point notation with the
    same precision are the same text. *)

Lemma decimal_acc_shift (s : string) (acc : N) :
  decimal_acc s acc = (acc * 10 ^ N.of_nat (String.length s) + decimal_value s)%N.
Proof.
  unfold decimal_value. revert acc; induction s as [|c s IH]; intros acc.
  - simpl. lia.
  - cbn [decimal_acc String.length]. rewrite IH, (IH (10 * 0 + digit_value c)%N).
    rewrite Nnat.Nat2N.inj_succ, N.pow_succ_r'. lia.
Qed.

Lemma digit_value_bound (c : ascii) : is_digit c = true -> (digit_value c < 10)%N.
Proof.
  unfold is_digit, digit_value. intros H. apply andb_prop in H as [H1 H2].
  apply N.leb_le in H1, H2. lia.
Qed.

Lemma digit_value_inj (c d : ascii) :
  is_digit c = true -> is_digit d = true -> digit_value c = digit_value d -> c = d.
Proof.
  unfold is_digit, digit_value. intros Hc Hd H.
  apply andb_prop in Hc as [Hc _]. apply andb_prop in Hd as [Hd _].
  apply N.leb_le in Hc, Hd.
  rewrite <- (ascii_N_embedding c), <- (ascii_N_embedding d). f_equal. lia.
Qed.

Lemma decimal_value_bound (s : string) :
  all_digits s = true -> (decimal_value s < 10 ^ N.of_nat (String.length s))%N.
Proof.
  induction s as [|c s IH]; intros H.
  - simpl. unfold decimal_value. simpl. lia.
  - cbn [all_digits] in H. apply andb_prop in H as [Hc Hs].
    unfold decimal_value. cbn [decimal_acc String.length].
    rewrite decimal_acc_shift, Nnat.Nat2N.inj_succ, N.pow_succ_r'.
    pose proof (@digit_value_bound c Hc). specialize (IH Hs). nia.
Qed.

Lemma decimal_value_cons (c : ascii) (s : string) :
  decimal_value (String c s)
  = (digit_value c * 10 ^ N.of_nat (String.length s) + decimal_value s)%N.
Proof.
  unfold decimal_value at 1. cbn [decimal_acc]. rewrite decimal_acc_shift. f_equal.
Qed.

Lemma split_unique (b q q' r r' : N) :
  (r < b)%N -> (r' < b)%N -> (q * b + r = q' * b + r')%N -> q = q' /\ r = r'.
Proof.
  intros H H' E. apply (N.div_mod_unique b); try assumption.
  now rewrite !(N.mul_comm b).
Qed.

Lemma decimal_value_inj (s t : string) :
  all_digits s = true -> all_digits t = true ->
  String.length s = String.length t ->
  decimal_value s = decimal_value t -> s = t.
Proof.
  revert t; induction s as [|c s IH]; intros [|d t] Hs Ht Hlen Hv;
    try discriminate Hlen; [reflexivity|].
  cbn [all_digits] in Hs, Ht.
  apply andb_prop in Hs as [Hc Hs]. apply andb_prop in Ht as [Hd Ht].
  injection Hlen as Hlen.
  rewrite !decimal_value_cons, <- Hlen in Hv.
  pose proof (@decimal_value_bound s Hs) as Bs.
  pose proof (@decimal_value_bound t Ht) as Bt. rewrite <- Hlen in Bt.
  destruct (@split_unique _ _ _ _ _ Bs Bt Hv) as [H1 H2].
  f_equal; [now apply digit_value_inj | now apply IH].
Qed.

Lemma canonical_lower_bound (s : string) :
  canonical_integer s -> (2 <= String.length s)%nat ->
  (10 ^ N.of_nat (String.length s - 1) <= decimal_value s)%N.
Proof.
  intros [Hd Hc] Hlen. destruct s as [|c s]; [contradiction|].
  destruct Hc as [Hc| ->]; [|simpl in Hlen; lia].
  cbn [all_digits] in Hd. apply andb_prop in Hd as [Hd _].
  rewrite decimal_value_cons. cbn [String.length].
  replace (S (String.length s) - 1)%nat with (String.length s) by lia.
  assert (digit_value c <> 0)%N as Hnz.
  { intros H. apply Hc. apply digit_value_inj; [exact Hd|reflexivity|exact H]. }
  nia.
Qed.

Lemma canonical_length (s : string) : canonical_integer s -> (1 <= String.length s)%nat.
Proof. intros [_ H]. destruct s; [contradiction|simpl; lia]. Qed.

Lemma canonical_inj (s t : string) :
  canonical_integer s -> canonical_integer t ->
  decimal_value s = decimal_value t -> s = t.
Proof.
  intros Hs Ht Hv.
  assert (forall a b, canonical_integer a -> canonical_integer b ->
                      decimal_value a = decimal_value b ->
                      (String.length a < String.length b)%nat -> False) as Hlt.
  { intros a b Ha Hb Hab Hl.
    pose proof (@canonical_length a Ha).
    pose proof (@canonical_lower_bound b Hb ltac:(lia)) as Hlow.
    pose proof (@decimal_value_bound a (proj1 Ha)) as Hup.
    assert (10 ^ N.of_nat (String.length a) <= 10 ^ N.of_nat (String.length b - 1))%N
      by (apply N.pow_le_mono_r; lia).
    lia. }
  apply decimal_value_inj; [apply Hs|apply Ht| |exact Hv].
  destruct (Nat.lt_trichotomy (String.length s) (String.length t)) as [H|[H|H]];
    [exfalso; exact (Hlt s t Hs Ht Hv H) | exact H
    | exfalso; exact (Hlt t s Ht Hs (eq_sym Hv) H)].
Qed.

Lemma nearest_even_unique (num den n n' : Z) :
  (0 < den)%Z -> nearest_even num den n -> nearest_even num den n' -> n = n'.
Proof.
  unfold nearest_even. intros Hden [H1 E1] [H2 E2].
  destruct (Z.eq_dec n n') as [|Hne]; [assumption|exfalso].
  assert (n' = n + 1 \/ n = n' + 1)%Z as Hadj by nia.
  assert (2 * Z.abs (n * den - num) = den /\ 2 * Z.abs (n' * den - num) = den)%Z
    as [T1 T2] by nia.
  specialize (E1 T1). specialize (E2 T2).
  destruct Hadj as [-> | ->]; rewrite Z.even_add in *;
    [rewrite E1 in E2 | rewrite E2 in E1]; discriminate.
Qed.

Lemma decimal_text_unique (precision : nat) (s : bool) (num den : Z) (t t' : string) :
  (0 < den)%Z ->
  decimal_text precision s num den t -> decimal_text precision s num den t' -> t = t'.
Proof.
  intros Hden (ip & fp & -> & Hip & Hfp & Hlen & Hn) (ip' & fp' & -> & Hip' & Hfp' & Hlen' & Hn').
  pose proof (@nearest_even_unique _ _ _ _ Hden Hn Hn') as Hv. apply N2Z.inj in Hv.
  unfold decimal_value in Hv. rewrite !decimal_acc_append, !decimal_acc_shift in Hv.
  rewrite Hlen, Hlen' in Hv.
  pose proof (@decimal_value_bound fp Hfp) as B. rewrite Hlen in B.
  pose proof (@decimal_value_bound fp' Hfp') as B'. rewrite Hlen' in B'.
  fold (decimal_value ip) in Hv. fold (decimal_value ip') in Hv.
  destruct (@split_unique _ _ _ _ _ B B' Hv) as [Hi Hf].
  rewrite (@canonical_inj ip ip' Hip Hip' Hi).
  rewrite (@decimal_value_inj fp fp' Hfp Hfp' (eq_trans Hlen (eq_sym Hlen')) Hf).
  reflexivity.
Qed.

Lemma fixed_point_of_unique (precision : nat) (f : float) (t t' : string) :
  fixed_point_of precision f t -> fixed_point_of precision f t' -> t = t'.
Proof.
  destruct f as [s|s| |s m e]; cbn [fixed_point_of].
  - apply decimal_text_unique; lia.
  - congruence.
  - congruence.
  - apply decimal_text_unique. apply Z.pow_pos_nonneg; lia.
Qed.

(** *** The templates *)

Lemma template_has_no_point (c : BoundCurve) : has_char "." (MATH_TEMPLATE c) = false.
Proof. destruct c; reflexivity. Qed.

Lemma substring_adjacent (p q : ascii -> bool) (a b : ascii) (r hay : string) :
  is_substring (String a (String b r)) hay = true ->
  p a = true -> q b = true -> has_adjacent p q hay = true.
Proof.
  intros Hs Ha Hb. induction hay as [|c h IH].
  - discriminate Hs.
  - change (is_substring (String a (String b r)) (String c h))
      with (if String.prefix (String a (String b r)) (String c h) then true
            else is_substring (String a (String b r)) h) in Hs.
    destruct (String.prefix (String a (String b r)) (String c h)) eqn:Hp.
    + cbn [String.prefix] in Hp.
      destruct (ascii_dec a c) as [<-|]; [|discriminate Hp].
      destruct h as [|d h']; [discriminate Hp|]. cbn [String.prefix] in Hp.
      destruct (ascii_dec b d) as [<-|]; [|discriminate Hp].
      cbn [has_adjacent]. now rewrite Ha, Hb.
    + specialize (IH Hs). destruct h as [|d h']; [discriminate IH|].
      cbn [has_adjacent] in IH |- *. rewrite IH. apply orb_true_r.
Qed.

Lemma substring_single (a : ascii) (hay : string) :
  is_substring (String a "") hay = true -> has_char a hay = true.
Proof.
  intros H. apply (@substring_has_char a (String a "") hay H).
  simpl. now rewrite Ascii.eqb_refl.
Qed.

Lemma template_digits (c : BoundCurve) (ch : ascii) :
  is_digit ch = true -> has_char ch (MATH_TEMPLATE c) = true ->
  (ch = "2"%char /\ variant c = VGaussianKernel)
  \/ (ch = "1"%char
      /\ (variant c = VPowerLawKernel \/ variant c = VRectangularHyperbolaKernel)).
Proof.
  intros Hd Hc.
  destruct ch as [[] [] [] [] [] [] [] []]; vm_compute in Hd; try discriminate Hd;
    destruct c; vm_compute in Hc; try discriminate Hc; cbn [variant]; auto.
Qed.

Lemma template_adjacent (c : BoundCurve) :
  has_adjacent is_digit is_digit (MATH_TEMPLATE c) = false
  /\ has_adjacent is_minus is_digit (MATH_TEMPLATE c) = false.
Proof. destruct c; split; reflexivity. Qed.

Lemma template_special (c : BoundCurve) :
  is_substring "nan" (MATH_TEMPLATE c) = false
  /\ is_substring "inf" (MATH_TEMPLATE c) = false
  /\ is_substring "-inf" (MATH_TEMPLATE c) = false.
Proof. destruct c; repeat split; reflexivity. Qed.

(** A number in fixed-point notation is part of a template only as one of
    the constants of its formula. *)
Lemma decimal_text_in_template (c : BoundCurve) (precision : nat) (s : bool)
      (num den : Z) (text : string) :
  decimal_text precision s num den text ->
  is_substring text (MATH_TEMPLATE c) = true ->
  precision = O
  /\ ((text = "2" /\ variant c = VGaussianKernel)
      \/ (text = "1"
          /\ (variant c = VPowerLawKernel \/ variant c = VRectangularHyperbolaKernel))).
Proof.
  intros (ip & fp & -> & [Hd Hc] & Hfp & Hlen & _) Hs.
  destruct precision as [|k].
  - split; [reflexivity|].
    destruct fp; [|discriminate Hlen].
    destruct ip as [|d t]; [contradiction|].
    cbn [all_digits] in Hd. apply andb_prop in Hd as [Hd Ht].
    destruct (template_adjacent c) as [Hdd Hmd].
    destruct s.
    + exfalso. cbn [append] in Hs.
      pose proof (@substring_adjacent is_minus is_digit _ _ _ _ Hs eq_refl Hd) as H.
      rewrite Hmd in H. discriminate H.
    + cbn [append] in Hs. destruct t as [|d' t'].
      * cbn [append] in Hs. apply substring_single in Hs.
        destruct (@template_digits c d Hd Hs) as [[-> H]|[-> H]]; auto.
      * exfalso. cbn [all_digits] in Ht. apply andb_prop in Ht as [Hd' _].
        cbn [append] in Hs.
        pose proof (@substring_adjacent is_digit is_digit _ _ _ _ Hs Hd Hd') as H.
        rewrite Hdd in H. discriminate H.
  - exfalso.
    assert (has_char "." ((if s then "-" else "") ++ ip ++ "." ++ fp) = true) as Hp.
    { rewrite !has_char_append. simpl. now rewrite !orb_true_r. }
    pose proof (@substring_has_char "." _ _ Hs Hp) as H.
    now rewrite template_has_no_point in H.
Qed.

Lemma fixed_point_in_template (c : BoundCurve) (precision : nat) (f : float) (text : string) :
  fixed_point_of precision f text ->
  is_substring text (MATH_TEMPLATE c) = true ->
  precision = O
  /\ ((text = "2" /\ variant c = VGaussianKernel)
      \/ (text = "1"
          /\ (variant c = VPowerLawKernel \/ variant c = VRectangularHyperbolaKernel))).
Proof.
  destruct (template_special c) as (Hnan & Hinf & Hninf).
  destruct f as [s|s| |s m e]; cbn [fixed_point_of].
  - apply decimal_text_in_template.
  - intros -> H. exfalso. destruct s; [rewrite Hninf in H|rewrite Hinf in H]; discriminate H.
  - intros -> H. exfalso. rewrite Hnan in H. discriminate H.
  - apply decimal_text_in_template.
Qed.

(** ** Display strings *)

Lemma coerce_total (P : Platform) (ps : list (string * pyval)) :
  Forall (fun kv => exists f, _value (snd kv) = Ok f) ps -> exists kw, coerce ps = Ok kw.
Proof.
  induction 1 as [|[k v] ps [f Hf] _ [kw IH]].
  - exists []. reflexivity.
  - exists ((k, f) :: kw). rewrite coerce_cons. cbn [snd] in Hf. rewrite Hf, IH. reflexivity.
Qed.

Lemma rendered_items (P : Platform) (precision : nat) (ps : list (string * pyval)) (kw : kwargs) :
  coerce ps = Ok kw ->
  Forall2 (fun kv item => exists f text,
             _value (snd kv) = Ok f
             /\ item = (fst kv ++ "=" ++ text)%string
             /\ fixed_point_of precision f text)
          ps (map (render precision) kw).
Proof.
  revert kw; induction ps as [|[k v] ps IH]; intros kw.
  - intros H; inversion H; constructor.
  - rewrite coerce_cons. destruct (_value v) as [f|e] eqn:Hv; simpl; [|discriminate].
    destruct (coerce ps) as [r|e]; simpl; [|discriminate].
    intros H; inversion H; subst. cbn [map]. constructor; [|now apply IH].
    exists f, (format_fixed precision f). split; [exact Hv|]. split; [reflexivity|].
    apply format_fixed_is_fixed_point.
Qed.

(** C7. When every bound parameter coerces, [params_str(precision, sep)]
    is the items joined by [sep], one item per parameter and in the
    declared order, and the item of a parameter is its name, [=], and its
    coerced value in fixed-point notation with [precision] decimals: a
    minus sign exactly when the sign bit is set, an integer part with no
    superfluous zero and, for a positive [precision], a point and exactly
    [precision] digits, the digits being the value scaled by
    [10^precision] and rounded to nearest, ties to even ([nan], [inf] and
    [-inf] for the values that are no numbers).  That text is unique.  An
    [ExponentialKernel] bound to [lam = 2.5] gives ["lam=2.50"] with the
    defaults.  The interpreter accepts a precision below [2^31]. *)
Theorem C7_params_str_renders_parameters :
  forall (P : Platform) (c : BoundCurve) (precision : nat) (sep : string),
    (Z.of_nat precision < 2 ^ 31)%Z ->
    Forall (fun kv => exists f, _value (snd kv) = Ok f) (parameters c) ->
    (exists items,
        params_str precision sep c = Ok (String.concat sep items)
        /\ Forall2 (fun kv item => exists f text,
                      _value (snd kv) = Ok f
                      /\ item = (fst kv ++ "=" ++ text)%string
                      /\ fixed_point_of precision f text)
                   (parameters c) items)
    /\ (forall f text text',
          fixed_point_of precision f text -> fixed_point_of precision f text' -> text = text')
    /\ params_str 2 ", " (ExponentialKernel (PyFloat (Ref.lit "2.5"))) = Ok "lam=2.50".
Proof.
  intros P c precision sep _ Hall. split; [|split].
  - destruct (@coerce_total P (parameters c) Hall) as [kw Hkw].
    exists (map (render precision) kw). split.
    + now rewrite params_str_coerce, Hkw.
    + now apply rendered_items.
  - intros f text text'. apply fixed_point_of_unique.
  - reflexivity.
Qed.

Lemma C7_witness :
  (exists items,
      params_str (P := Ref.platform) 2 ", " rounding_curve = Ok (String.concat ", " items)
      /\ Forall2 (fun kv item => exists f text,
                    _value (P := Ref.platform) (snd kv) = Ok f
                    /\ item = (fst kv ++ "=" ++ text)%string
                    /\ fixed_point_of 2 f text)
                 (parameters rounding_curve) items)
  /\ params_str (P := Ref.platform) 2 ", " rounding_curve = Ok "a=-1.50, p=0.38, b=2.67"
  /\ params_str (P := Ref.platform) 0 ";" rounding_curve = Ok "a=-2;p=0;b=3".
Proof.
  split; [|split; reflexivity].
  refine (proj1 (@C7_params_str_renders_parameters Ref.platform rounding_curve 2 ", " _ _)).
  - reflexivity.
  - repeat (apply Forall_cons; [eexists; reflexivity|]). apply Forall_nil.
Defined.

(** C8. [math_str] returns the template of the instance's class, the
    string written in the class: two instances of one class give the same
    string whatever they are bound to.  No number in fixed-point notation
    with at least one decimal is part of it, so no bound value as
    [params_str] prints it with a positive precision; with precision 0 the
    only numbers that are part of a template are the constants of its
    formula, the exponent [2] of the Gaussian kernel and the [1] of the
    power-law and rectangular-hyperbola kernels, which are also the only
    digits the templates contain. *)
Theorem C8_math_str_is_the_fixed_template :
  forall (c : BoundCurve),
    math_str c
    = match variant c with
      | VPowerLawDecay => "$f(x) = a \\cdot (x + b)^{-p}$"
      | VLogGrowth => "$f(x) = a \\cdot \\ln(x + b)$"
      | VExponentialKernel => "$K(r) = \exp\!\left(-\dfrac{r}{\lambda}\right)$"
      | VGaussianKernel => "$K(r) = \exp\!\left(-\left(\dfrac{r}{\sigma}\right)^2\right)$"
      | VPowerLawKernel => "$K(r) = \left(1 + \dfrac{r}{\alpha}\right)^{-p}$"
      | VExpPowerKernel => "$K(r) = \exp\!\left(-\left(\dfrac{r}{\lambda}\right)^{q}\right)$"
      | VRectangularHyperbolaKernel =>
          "$K(r) = \dfrac{1}{1 + \left(\dfrac{r}{\alpha}\right)^{p}}$"
      end
    /\ (forall c', variant c' = variant c -> math_str c' = math_str c)
    /\ (forall precision f text,
          (1 <= precision)%nat -> fixed_point_of precision f text ->
          is_substring text (math_str c) = false)
    /\ (forall precision f text,
          fixed_point_of precision f text -> is_substring text (math_str c) = true ->
          precision = O
          /\ ((text = "2" /\ variant c = VGaussianKernel)
              \/ (text = "1"
                  /\ (variant c = VPowerLawKernel
                      \/ variant c = VRectangularHyperbolaKernel))))
    /\ (forall ch, is_digit ch = true -> has_char ch (math_str c) = true ->
          (ch = "2"%char /\ variant c = VGaussianKernel)
          \/ (ch = "1"%char
              /\ (variant c = VPowerLawKernel \/ variant c = VRectangularHyperbolaKernel))).
Proof.
  intros c. split; [|split; [|split; [|split]]].
  - destruct c; reflexivity.
  - intros c' H. destruct c, c'; try discriminate H; reflexivity.
  - intros precision f text Hprec Hf.
    destruct (is_substring text (math_str c)) eqn:Hs; [|reflexivity].
    destruct (@fixed_point_in_template c precision f text Hf Hs) as [-> _]. lia.
  - intros precision f text. apply fixed_point_in_template.
  - intros ch. apply template_digits.
Qed.

Lemma C8_witness :
  math_str (GaussianKernel (PyFloat (Ref.lit "2"))) = math_str (GaussianKernel (PyInt 7))
  /\ is_substring "2.00" (math_str (GaussianKernel (PyFloat (Ref.lit "2")))) = false.
Proof.
  split.
  - apply (proj1 (proj2 (@C8_math_str_is_the_fixed_template (GaussianKernel (PyInt 7))))).
    reflexivity.
  - apply (proj1 (proj2 (proj2 (@C8_math_str_is_the_fixed_template
                                  (GaussianKernel (PyFloat (Ref.lit "2"))))))
             2%nat (Ref.lit "2") "2.00").
    + lia.
    + exists "2", "00". repeat split; try reflexivity.
      * left. discriminate.
      * vm_compute. discriminate.
Defined.

(** C8 as the spec states it fails: the template is not made of variable
    names only, and it can contain the value of a parameter.  A Gaussian
    kernel bound to [sigma = 2] prints its parameter as [sigma=2] with
    precision 0, and its template contains [2], the exponent of the
    formula; the template of the power-law kernel contains the constant
    [1]. *)
Lemma C8_counterexample :
  _value (P := Ref.platform) (PyInt 2) = Ok (Ref.lit "2")
  /\ params_str (P := Ref.platform) 0 ", " (GaussianKernel (PyInt 2)) = Ok "sigma=2"
  /\ is_substring "2" (math_str (GaussianKernel (PyInt 2))) = true
  /\ has_char "1" (math_str (PowerLawKernel (PyInt 5) (PyInt 3))) = true.
Proof. vm_compute. repeat split. Qed.

(** * Further properties of the package *)

(** ** Bound curves against the standalone functions *)

Section BoundAgainstStandalone.

Context {P : Platform}.

(** X1. Calling a bound curve is calling its standalone function on the
    coerced values of its fields, each value bound to the keyword of its
    own name: the classes add nothing to the formulas. *)
Theorem bound_curve_is_standalone_function :
  forall (x : pyval),
    (forall u v w fu fv fw,
        _value u = Ok fu -> _value v = Ok fv -> _value w = Ok fw ->
        __call__ (PowerLawDecay u v w) x = power_law_decay x fu fv fw)
    /\ (forall u v fu fv,
        _value u = Ok fu -> _value v = Ok fv ->
        __call__ (LogGrowth u v) x = log_growth x fu fv
        /\ __call__ (PowerLawKernel u v) x = kernel_powerlaw x fu fv
        /\ __call__ (ExpPowerKernel u v) x = kernel_exppower x fu fv
        /\ __call__ (RectangularHyperbolaKernel u v) x
           = kernel_rectangular_hyperbola x fu fv)
    /\ (forall u fu,
        _value u = Ok fu ->
        __call__ (ExponentialKernel u) x = kernel_exponential x fu
        /\ __call__ (GaussianKernel u) x = kernel_gaussian x fu).
Proof.
  intros x. split; [|split].
  - intros u v w fu fv fw Hu Hv Hw.
    unfold __call__, coerce_parameters, parameters, mapM.
    cbn [fst snd]. rewrite Hu, Hv, Hw. reflexivity.
  - intros u v fu fv Hu Hv.
    unfold __call__, coerce_parameters, parameters, mapM.
    cbn [fst snd]. rewrite Hu, Hv. repeat split.
  - intros u fu Hu.
    unfold __call__, coerce_parameters, parameters, mapM.
    cbn [fst snd]. rewrite Hu. repeat split.
Qed.

End BoundAgainstStandalone.

Lemma bound_curve_is_standalone_function_witness :
  __call__ (P := Ref.platform)
    (PowerLawKernel (PyObj "marimo" "slider" (Some (PyFloat (Ref.lit "10")))) (PyInt 2))
    sample_input
  = kernel_powerlaw (P := Ref.platform) sample_input (Ref.lit "10") (Ref.lit "2").
Proof.
  apply (proj1 (proj2 (@bound_curve_is_standalone_function Ref.platform sample_input)))
    with (u := PyObj "marimo" "slider" (Some (PyFloat (Ref.lit "10")))) (v := PyInt 2);
    reflexivity.
Defined.

(** ** What [_value] accepts *)

(** X2. [_value] hands to [float] what a holder's [.value] holds, and
    looks no further: the holder coerces to [f] exactly when [float] gives
    [f] on the held value; and when [float] refuses the held value with a
    [TypeError] or a [ValueError], [_value] raises the [TypeError] whose
    message names the class of the holder, qualified by its module, and
    not the type of what it holds. *)
Theorem value_of_holder_follows_float :
  forall (P : Platform) (m c : string) (w : pyval),
    (forall f, _value (PyObj m c (Some w)) = Ok f <-> py_float w = Ok f)
    /\ (float_refuses w ->
        String.eqb m "builtins" = false ->
        _value (PyObj m c (Some w))
        = Raise (TypeError ("Cannot convert " ++ ("<class '" ++ m ++ "." ++ c ++ "'>")
                            ++ " to float; expected a number or an object with .value"))).
Proof.
  intros P m c w. split.
  - intros f. unfold _value. cbn [getattr_value].
    destruct (py_float w) as [g|[msg|msg|msg]]; split; intros H;
      try discriminate H; exact H.
  - intros [msg [H|H]] Hm; unfold _value, cannot_convert, type_repr;
      cbn [getattr_value]; rewrite H, Hm; reflexivity.
Qed.

Lemma value_of_holder_follows_float_witness :
  _value (P := Ref.platform) (PyObj "marimo" "text" (Some (PyStr "abc")))
  = Raise (TypeError
             "Cannot convert <class 'marimo.text'> to float; expected a number or an object with .value").
Proof.
  apply (proj2 (@value_of_holder_follows_float Ref.platform "marimo" "text" (PyStr "abc"))).
  - exists "could not convert string to float: 'abc'". right. reflexivity.
  - reflexivity.
Defined.



(** ** The kernels at the origin *)

Lemma div_zero_by_positive (s : bool) (d : float) :
  F64.gt d F64.zero = true -> exists s', F64.div (S754_zero s) d = S754_zero s'.
Proof.
  destruct d as [sd|sd| |sd m e]; cbv; intros H; try discriminate H;
    eexists; reflexivity.
Qed.

Lemma add_one_zero (s : bool) : F64.add F64.one (S754_zero s) = F64.one.
Proof. reflexivity. Qed.

Lemma mul_zero_zero (s : bool) : F64.mul (S754_zero s) (S754_zero s) = S754_zero false.
Proof. destruct s; reflexivity. Qed.

Lemma opp_zero (s : bool) : F64.opp (S754_zero s) = S754_zero (negb s).
Proof. reflexivity. Qed.

Lemma gt_one_zero : F64.gt F64.one F64.zero = true.
Proof. reflexivity. Qed.

Lemma div_one_one : F64.div F64.one F64.one = F64.one.
Proof. vm_compute. reflexivity. Qed.

(** X4. On a platform that follows Annex F on the exact cases, every
    dispersal kernel with valid parameters is exactly 1 wherever the
    distance is a zero of either sign. *)
Theorem kernels_are_one_at_the_origin :
  forall (P : Platform), AnnexFExact P ->
  forall (x : pyval) (A : ndarray float) (i : nat) (s : bool),
    np_asarray x = Ok A -> nth_error (data A) i = Some (S754_zero s) ->
    (forall lam, F64.gt lam F64.zero = true ->
       at_pos (kernel_exponential x lam) i F64.one)
    /\ (forall sigma, F64.gt sigma F64.zero = true ->
       at_pos (kernel_gaussian x sigma) i F64.one)
    /\ (forall alpha p, F64.gt alpha F64.zero = true -> F64.gt p F64.zero = true ->
       at_pos (kernel_powerlaw x alpha p) i F64.one
       /\ at_pos (kernel_rectangular_hyperbola x alpha p) i F64.one)
    /\ (forall lam q, F64.gt lam F64.zero = true -> F64.gt q F64.zero = true ->
       at_pos (kernel_exppower x lam q) i F64.one).
Proof.
  intros P HF x A i s HA Hi. split; [|split; [|split]].
  - intros lam Hl.
    pose proof (@kernel_exponential_at P x A lam i _ (gt_zero_not_le _ Hl) HA Hi) as H.
    rewrite opp_zero in H.
    destruct (div_zero_by_positive (negb s) lam Hl) as [s' Hs']. rewrite Hs' in H.
    now rewrite exp_zero in H.
  - intros sigma Hs.
    pose proof (@kernel_gaussian_at P x A sigma i _ (gt_zero_not_le _ Hs) HA Hi) as H.
    destruct (div_zero_by_positive s sigma Hs) as [s' Hs']. rewrite Hs' in H.
    now rewrite mul_zero_zero, opp_zero, exp_zero in H.
  - intros alpha p Ha Hp.
    destruct (div_zero_by_positive s alpha Ha) as [s' Hs'].
    split.
    + pose proof (@kernel_powerlaw_at P x A alpha p i _
                    (gt_zero_not_le _ Ha) (gt_zero_not_le _ Hp) HA Hi) as H.
      cbv zeta in H. rewrite Hs', add_one_zero, gt_one_zero in H.
      now rewrite power_one in H.
    + pose proof (@kernel_rectangular_hyperbola_at P x A alpha p i _
                    (gt_zero_not_le _ Ha) (gt_zero_not_le _ Hp) HA Hi) as H.
      cbv zeta in H. rewrite Hs' in H.
      destruct (power_zero s' p Hp) as [s'' Hs'']. rewrite Hs'' in H.
      now rewrite add_one_zero, gt_one_zero, div_one_one in H.
  - intros lam q Hl Hq.
    pose proof (@kernel_exppower_at P x A lam q i _
                  (gt_zero_not_le _ Hl) (gt_zero_not_le _ Hq) HA Hi) as H.
    destruct (div_zero_by_positive s lam Hl) as [s' Hs']. rewrite Hs' in H.
    destruct (power_zero s' q Hq) as [s'' Hs'']. rewrite Hs'' in H.
    now rewrite opp_zero, exp_zero in H.
Qed.

Lemma Ref_annexF_exact : AnnexFExact Ref.platform.
Proof.
  split.
  - intros s. reflexivity.
  - intros y. destruct y as [s|s| |s m e]; try reflexivity.
    cbn [np_power Ref.platform]. unfold Ref.pow, F64.one, F64.of_Z.
    change (F64.of_dyadic 1 0) with (S754_finite false 4503599627370496 (-52)).
    cbv iota beta. unfold Ref.pow_pos.
    replace (Ref.fx_log 4503599627370496 (-52)) with 0%Z by (vm_compute; reflexivity).
    rewrite Z.mul_0_l, Z.shiftl_0_l. destruct s; vm_compute; reflexivity.
  - intros s y Hy. destruct y as [sy|sy| |sy m e]; try discriminate Hy.
    + destruct sy; [discriminate Hy|]. eexists. reflexivity.
    + destruct sy; [discriminate Hy|].
      cbn [np_power Ref.platform]. unfold Ref.pow.
      replace (Ref.negative (S754_finite false m e)) with false by reflexivity.
      eexists. reflexivity.
Qed.

Lemma kernels_are_one_at_the_origin_witness :
  at_pos (kernel_exponential (P := Ref.platform) (PyArray zeros_array) (Ref.lit "2")) 1 F64.one
  /\ at_pos (kernel_gaussian (P := Ref.platform) (PyArray zeros_array) (Ref.lit "inf")) 1 F64.one
  /\ at_pos (kernel_powerlaw (P := Ref.platform) (PyArray zeros_array)
               (Ref.lit "10") (Ref.lit "2")) 1 F64.one
  /\ at_pos (kernel_rectangular_hyperbola (P := Ref.platform) (PyArray zeros_array)
               (Ref.lit "10") (Ref.lit "3")) 1 F64.one
  /\ at_pos (kernel_exppower (P := Ref.platform) (PyArray zeros_array)
               (Ref.lit "10") (Ref.lit "1.5")) 1 F64.one.
Proof.
  destruct (@kernels_are_one_at_the_origin Ref.platform Ref_annexF_exact
              (PyArray zeros_array) zeros_array 1 true eq_refl eq_refl)
    as (H1 & H2 & H3 & H4).
  split; [apply H1; reflexivity|].
  split; [apply H2; reflexivity|].
  split; [apply (H3 (Ref.lit "10") (Ref.lit "2")); reflexivity|].
  split; [apply (H3 (Ref.lit "10") (Ref.lit "3")); reflexivity|].
  apply H4; reflexivity.
Defined.

(** ** Symmetry of the Gaussian kernel *)

Lemma binary_round_aux_opp (s : bool) (m e : Z) (l : location) :
  binary_round_aux F64.prec F64.emax (negb s) m e l
  = SFopp (binary_round_aux F64.prec F64.emax s m e l).
Proof.
  unfold binary_round_aux.
  destruct (shr_fexp F64.prec F64.emax m e l) as [mrs' e'].
  destruct (shr_fexp F64.prec F64.emax
              (round_nearest_even (shr_m mrs') (loc_of_shr_record mrs')) e' loc_Exact)
    as [mrs'' e''].
  destruct (shr_m mrs''); [reflexivity| |reflexivity].
  destruct (Z.leb e'' (F64.emax - F64.prec)); reflexivity.
Qed.

Lemma div_opp_l (x y : float) : F64.div (F64.opp x) y = F64.opp (F64.div x y).
Proof.
  unfold F64.div, F64.opp.
  destruct x as [sx|sx| |sx mx ex], y as [sy|sy| |sy my ey]; simpl;
    try reflexivity; try (destruct sx, sy; reflexivity).
  destruct (SFdiv_core_binary F64.prec F64.emax (Z.pos mx) ex (Z.pos my) ey) as [[mz ez] lz].
  rewrite <- binary_round_aux_opp. now destruct sx, sy.
Qed.

Lemma mul_opp_opp (t : float) : F64.mul (F64.opp t) (F64.opp t) = F64.mul t t.
Proof.
  unfold F64.mul, F64.opp.
  destruct t as [s|s| |s m e]; simpl; try reflexivity; now destruct s.
Qed.

(** X5. The Gaussian kernel is even on every platform and for every
    [sigma]: negating every distance gives an array of the same shape that
    holds, position by position, the same binary64 value, and NaN where
    the other holds NaN.  Every NaN is one value here: the sign bit and
    the payload of a NaN, which negation flips and the platform's [exp]
    may carry through, are outside the statement. *)
Theorem kernel_gaussian_is_even :
  forall (P : Platform) (A : ndarray float) (sigma : float),
    kernel_gaussian (PyArray (arr_map F64.opp A)) sigma = kernel_gaussian (PyArray A) sigma.
Proof.
  intros P A sigma. unfold kernel_gaussian, _full_nan_like, np_full_like.
  cbn [np_asarray bind].
  destruct (F64.le sigma F64.zero).
  - unfold arr_map; cbn [shape data]. now rewrite !map_map.
  - unfold arr_map; cbn [shape data]. rewrite map_map. do 2 f_equal.
    apply map_ext. intros v. cbv zeta. now rewrite div_opp_l, mul_opp_opp.
Qed.

(** ** The buffer of the rectangular hyperbola *)

Lemma masked_quotient_closed_form
      (g : float -> float) (l : list float) (junk : list float) :
  List.length junk = List.length l ->
  zip_with (fun (c : bool) v => if c then v else F64.nan)
    (map (fun t => F64.gt (g t) F64.zero) l)
    (zip_with (fun (dm : float * bool) o => if snd dm then F64.div F64.one (fst dm) else o)
       (combine (map g l) (map (fun t => F64.ne (g t) F64.zero) l)) junk)
  = map (fun t => if F64.gt (g t) F64.zero then F64.div F64.one (g t) else F64.nan) l.
Proof.
  revert junk; induction l as [|t l IH]; intros [|o junk] Hlen;
    try discriminate Hlen; [reflexivity|].
  cbn [map combine zip_with fst snd]. rewrite IH by (simpl in Hlen; lia).
  f_equal. destruct (F64.gt (g t) F64.zero) eqn:Hg; [|reflexivity].
  now rewrite (gt_zero_ne _ Hg).
Qed.

Lemma kernel_rectangular_hyperbola_closed_form
      (P : Platform) (x : pyval) (alpha p : float) :
  kernel_rectangular_hyperbola x alpha p
  = if F64.le alpha F64.zero || F64.le p F64.zero then _full_nan_like x
    else r <- np_asarray x ;;
         Ok (arr_map (fun v => let d := F64.add F64.one (np_power (F64.div v alpha) p) in
                               if F64.gt d F64.zero then F64.div F64.one d else F64.nan) r).
Proof.
  unfold kernel_rectangular_hyperbola.
  destruct (F64.le alpha F64.zero || F64.le p F64.zero); [reflexivity|].
  destruct (np_asarray x) as [A|e]; [|reflexivity].
  cbn [bind]. f_equal.
  unfold np_where, rh_divide, rh_denom, rh_ratio, np_divide_where, np_empty_like, arr_map, size.
  cbn [shape data]. f_equal.
  rewrite !map_map.
  apply (masked_quotient_closed_form
           (fun t => F64.add F64.one (np_power (F64.div t alpha) p))).
  now rewrite length_map, length_seq, length_map.
Qed.

(** X6. The result of the rectangular hyperbola never depends on what
    [np.empty_like] found in memory: with any other contents of the fresh
    buffer the kernel returns the same array. *)
Theorem rectangular_hyperbola_ignores_the_buffer :
  forall (P : Platform) (junk : nat -> float) (x : pyval) (alpha p : float),
    kernel_rectangular_hyperbola (P := with_uninit P junk) x alpha p
    = kernel_rectangular_hyperbola (P := P) x alpha p.
Proof.
  intros P junk x alpha p.
  rewrite (kernel_rectangular_hyperbola_closed_form (with_uninit P junk)).
  rewrite (kernel_rectangular_hyperbola_closed_form P).
  reflexivity.
Qed.

(** * The path helper of the notebooks *)

Example ensure_examples :
  potential_roots notebook_path
  = [["home"; "me"; "proj"; "docs"; "examples"];
     ["home"; "me"; "proj"; "docs"; "examples"];
     ["home"; "me"; "proj"; "docs"]; ["home"; "me"; "proj"]; ["home"; "me"]; ["home"]; []]
  /\ _ensure_project_src_on_path checkout notebook_path ["/usr/lib/python3"]
     = ["/home/me/proj/src"; "/usr/lib/python3"]
  /\ _ensure_project_src_on_path nested_checkout notebook_path ["/usr/lib/python3"]
     = ["/usr/lib/python3"].
Proof. vm_compute. repeat split. Qed.

Section PathHelperFacts.

Variable path_exists : Path -> bool.

Lemma str_in_In (s : string) (l : list string) : str_in s l = true <-> In s l.
Proof.
  unfold str_in. rewrite existsb_exists. split.
  - intros (y & Hy & Heq). apply String.eqb_eq in Heq. now subst.
  - intros H. exists s. split; [exact H | apply String.eqb_refl].
Qed.

Lemma ensure_loop_without_project (roots : list Path) (sys_path : list string) :
  Forall (fun r => path_exists (joinpath r "pyproject.toml") = false) roots ->
  ensure_loop path_exists roots sys_path = sys_path.
Proof.
  induction 1 as [|r roots Hr _ IH]; simpl; [reflexivity|].
  now rewrite Hr.
Qed.

Lemma ensure_loop_at_nearest (roots : list Path) (root : Path) (sys_path : list string) :
  nearest_project path_exists roots root ->
  ensure_loop path_exists roots sys_path
  = if path_exists (joinpath root "src")
       && negb (str_in (path_str (joinpath root "src")) sys_path)
    then path_str (joinpath root "src") :: sys_path
    else sys_path.
Proof.
  intros (pre & post & -> & Hpre & Hroot).
  induction Hpre as [|r pre Hr _ IH]; simpl.
  - now rewrite Hroot.
  - now rewrite Hr.
Qed.

Lemma project_or_none (roots : list Path) :
  Forall (fun r => path_exists (joinpath r "pyproject.toml") = false) roots
  \/ exists root, nearest_project path_exists roots root.
Proof.
  induction roots as [|r roots IH].
  - left. constructor.
  - destruct (path_exists (joinpath r "pyproject.toml")) eqn:Hr.
    + right. exists r, [], roots. repeat split; auto.
    + destruct IH as [IH|(root & pre & post & -> & Hpre & Hroot)].
      * left. now constructor.
      * right. exists root, (r :: pre), post. repeat split; auto.
Qed.

End PathHelperFacts.

(** X7. [_ensure_project_src_on_path] is idempotent: run on its own
    result, with the file system unchanged, it changes nothing more. *)
Theorem ensure_project_src_is_idempotent :
  forall (path_exists : Path -> bool) (file_path : Path) (sys_path : list string),
    _ensure_project_src_on_path path_exists file_path
      (_ensure_project_src_on_path path_exists file_path sys_path)
    = _ensure_project_src_on_path path_exists file_path sys_path.
Proof.
  intros path_exists file_path sys_path. unfold _ensure_project_src_on_path.
  destruct (project_or_none path_exists (potential_roots file_path)) as [Hnone|[root Hroot]].
  - rewrite !ensure_loop_without_project by exact Hnone. reflexivity.
  - rewrite !(@ensure_loop_at_nearest path_exists _ root _ Hroot).
    destruct (path_exists (joinpath root "src")); [|reflexivity].
    destruct (str_in (path_str (joinpath root "src")) sys_path) eqn:Hin; simpl.
    + now rewrite Hin.
    + unfold str_in at 1. simpl. now rewrite String.eqb_refl.
Qed.

(** X8. [_ensure_project_src_on_path] leaves [sys.path] as it is or puts
    one new entry at its front: the [src] directory of the nearest
    ancestor that holds a [pyproject.toml], which exists and was not
    listed.  Nothing is removed or reordered, and a [sys.path] without
    duplicates stays so. *)
Theorem ensure_project_src_only_prepends :
  forall (path_exists : Path -> bool) (file_path : Path) (sys_path : list string),
    (_ensure_project_src_on_path path_exists file_path sys_path = sys_path
     \/ exists root,
          nearest_project path_exists (potential_roots file_path) root
          /\ path_exists (joinpath root "src") = true
          /\ ~ In (path_str (joinpath root "src")) sys_path
          /\ _ensure_project_src_on_path path_exists file_path sys_path
             = path_str (joinpath root "src") :: sys_path)
    /\ (NoDup sys_path ->
        NoDup (_ensure_project_src_on_path path_exists file_path sys_path)).
Proof.
  intros path_exists file_path sys_path.
  assert (_ensure_project_src_on_path path_exists file_path sys_path = sys_path
          \/ exists root,
               nearest_project path_exists (potential_roots file_path) root
               /\ path_exists (joinpath root "src") = true
               /\ ~ In (path_str (joinpath root "src")) sys_path
               /\ _ensure_project_src_on_path path_exists file_path sys_path
                  = path_str (joinpath root "src") :: sys_path) as Hcases.
  { unfold _ensure_project_src_on_path.
    destruct (project_or_none path_exists (potential_roots file_path)) as [Hnone|[root Hroot]].
    - left. now apply ensure_loop_without_project.
    - rewrite (@ensure_loop_at_nearest path_exists _ root _ Hroot).
      destruct (path_exists (joinpath root "src")) eqn:Hsrc; [|now left].
      destruct (str_in (path_str (joinpath root "src")) sys_path) eqn:Hin; [now left|].
      right. exists root. repeat split; auto.
      intros HIn. apply str_in_In in HIn. congruence. }
  split; [exact Hcases|].
  intros Hnd. destruct Hcases as [->|(root & _ & _ & Hnew & ->)]; [exact Hnd|].
  now constructor.
Qed.

Lemma ensure_project_src_only_prepends_witness :
  NoDup (_ensure_project_src_on_path checkout notebook_path ["/usr/lib/python3"; "/opt/site"]).
Proof.
  apply (proj2 (@ensure_project_src_only_prepends checkout notebook_path
                  ["/usr/lib/python3"; "/opt/site"])).
  repeat constructor; simpl; intuition discriminate.
Defined.

(** X9. The search stops at the nearest ancestor that holds a
    [pyproject.toml]: when that one has no [src] directory, [sys.path] is
    left unchanged, whatever the ancestors further up hold. *)
Theorem ensure_project_src_stops_at_nearest_project :
  forall (path_exists : Path -> bool) (file_path : Path) (sys_path : list string) (root : Path),
    nearest_project path_exists (potential_roots file_path) root ->
    path_exists (joinpath root "src") = false ->
    _ensure_project_src_on_path path_exists file_path sys_path = sys_path.
Proof.
  intros path_exists file_path sys_path root Hroot Hsrc.
  unfold _ensure_project_src_on_path.
  now rewrite (@ensure_loop_at_nearest path_exists _ root _ Hroot), Hsrc.
Qed.

Lemma ensure_project_src_stops_at_nearest_project_witness :
  _ensure_project_src_on_path nested_checkout notebook_path ["/usr/lib/python3"]
  = ["/usr/lib/python3"].
Proof.
  apply (@ensure_project_src_stops_at_nearest_project nested_checkout notebook_path
           ["/usr/lib/python3"] ["home"; "me"; "proj"; "docs"]).
  - exists [["home"; "me"; "proj"; "docs"; "examples"];
            ["home"; "me"; "proj"; "docs"; "examples"]],
           [["home"; "me"; "proj"]; ["home"; "me"]; ["home"]; []].
    split; [reflexivity|]. split; [|reflexivity].
    repeat constructor.
  - reflexivity.
Defined.

(** * The documentation renderer *)

Example render_docstring_example :
  render_docstring sample_docstring
  = String.concat newline
      ["Exponential kernel."; "";
       "## Args"; "- lam: (float) Positive scale."; "";
       "## Returns"; "- Array like the input."; "";
       "## Raises"; "- Exception: "; "";
       "## Examples"; "```python"; "k(r)"; "```"].
Proof. vm_compute. reflexivity. Qed.

Lemma append_nonempty (a b : string) : b <> EmptyString -> (a ++ b)%string <> EmptyString.
Proof. destruct a; simpl; [auto | discriminate]. Qed.

Lemma py_rstrip_last (s pre : string) (c : ascii) :
  py_rstrip s = (pre ++ String c EmptyString)%string -> py_isspace c = false.
Proof.
  revert pre; induction s as [|a t IH]; intros pre H; simpl in H.
  - destruct pre; discriminate H.
  - destruct (py_rstrip t) as [|b r] eqn:Hr.
    + destruct (py_isspace a) eqn:Ha; [destruct pre; discriminate H|].
      destruct pre as [|x pre]; simpl in H.
      * inversion H; subst. exact Ha.
      * inversion H as [[Hx Hnil]]. destruct pre; discriminate Hnil.
    + destruct pre as [|x pre]; simpl in H.
      * discriminate H.
      * inversion H; subst. now apply (IH pre).
Qed.

Lemma py_rstrip_idempotent (s : string) : py_rstrip (py_rstrip s) = py_rstrip s.
Proof.
  induction s as [|a t IH]; simpl; [reflexivity|].
  destruct (py_rstrip t) as [|b r] eqn:Hr.
  - destruct (py_isspace a) eqn:Ha; simpl; [reflexivity | now rewrite Ha].
  - change (py_rstrip (String a (String b r))) with
      (match py_rstrip (String b r) with
       | EmptyString => if py_isspace a then EmptyString else String a EmptyString
       | r' => String a r'
       end).
    now rewrite IH.
Qed.

Lemma py_rstrip_append (a b : string) :
  py_rstrip b <> EmptyString -> py_rstrip (a ++ b) = (a ++ py_rstrip b)%string.
Proof.
  intros Hb. induction a as [|c a IH]; simpl; [reflexivity|].
  rewrite IH. destruct (a ++ py_rstrip b)%string eqn:Happ; [|reflexivity].
  exfalso. now apply (append_nonempty a Hb).
Qed.

Lemma py_lstrip_head (s : string) :
  py_lstrip s = EmptyString
  \/ exists c t, py_lstrip s = String c t /\ py_isspace c = false.
Proof.
  induction s as [|a t IH]; simpl; [now left|].
  destruct (py_isspace a) eqn:Ha; [exact IH|].
  right. now exists a, t.
Qed.

Lemma py_strip_idempotent (s : string) : py_strip (py_strip s) = py_strip s.
Proof.
  unfold py_strip.
  destruct (py_lstrip_head s) as [->|(c & t & -> & Hc)]; [reflexivity|].
  assert (py_lstrip (py_rstrip (String c t)) = py_rstrip (String c t)) as ->.
  { simpl. destruct (py_rstrip t); [rewrite Hc|]; simpl; now rewrite Hc. }
  apply py_rstrip_idempotent.
Qed.

Lemma or_else_some_empty (x : string) : or_else (Some x) "" = x.
Proof. destruct x; reflexivity. Qed.

Lemma strip_tidy (o : option string) :
  py_strip (or_else (tidy o) "") = py_strip (or_else o "").
Proof. unfold tidy. now rewrite or_else_some_empty, py_strip_idempotent. Qed.

(** X10. The rendered documentation never ends in whitespace: no trailing
    blank, and no trailing newline after the last section. *)
Theorem doc_to_markdown_has_no_trailing_whitespace :
  forall (parse : string -> Docstring) (doc : option string) (pre : string) (c : ascii),
    doc_to_markdown parse doc = (pre ++ String c EmptyString)%string ->
    py_isspace c = false.
Proof.
  intros parse doc pre c H. unfold doc_to_markdown, render_docstring in H.
  eapply py_rstrip_last. exact H.
Qed.

Lemma doc_to_markdown_has_no_trailing_whitespace_witness :
  py_isspace "`" = false.
Proof.
  apply (@doc_to_markdown_has_no_trailing_whitespace (fun _ => sample_docstring) None
           (String.concat newline
              ["Exponential kernel."; "";
               "## Args"; "- lam: (float) Positive scale."; "";
               "## Returns"; "- Array like the input."; "";
               "## Raises"; "- Exception: "; "";
               "## Examples"; "```python"; "k(r)"; "``"])).
  vm_compute. reflexivity.
Defined.

Lemma param_lines_tidy (ps : list DocstringParam) :
  map param_line
    (map (fun p => {| arg_name := arg_name p;
                      param_type_name := param_type_name p;
                      param_description := tidy (param_description p) |}) ps)
  = map param_line ps.
Proof.
  rewrite map_map. apply map_ext. intros q.
  unfold param_line; cbn [arg_name param_type_name param_description].
  now rewrite strip_tidy.
Qed.

Lemma raises_lines_tidy (rs : list DocstringRaises) :
  map raises_line
    (map (fun r => {| raises_type_name := raises_type_name r;
                      raises_description := tidy (raises_description r) |}) rs)
  = map raises_line rs.
Proof.
  rewrite map_map. apply map_ext. intros q.
  unfold raises_line; cbn [raises_type_name raises_description].
  now rewrite strip_tidy.
Qed.

Lemma returns_line_tidy (r : DocstringReturns) :
  returns_line {| returns_type_name := returns_type_name r;
                  returns_description := tidy (returns_description r) |}
  = returns_line r.
Proof.
  unfold returns_line; cbn [returns_type_name returns_description].
  now rewrite strip_tidy.
Qed.

Lemma example_lines_tidy (exs : list DocstringExample) :
  flat_map example_lines
    (map (fun ex => {| example_description := tidy (example_description ex) |}) exs)
  = flat_map example_lines exs.
Proof.
  induction exs as [|ex exs IH]; [reflexivity|].
  cbn [map flat_map]. rewrite IH. f_equal.
  unfold example_lines; cbn [example_description]. now rewrite strip_tidy.
Qed.

(** X11. The renderer reads the descriptions of arguments, return value,
    exceptions and examples only through [(d or "").strip()]: whitespace
    around them, and whether a blank one is missing or empty, never shows
    in the output. *)
Theorem render_docstring_ignores_padding :
  forall (ds : Docstring), render_docstring (tidy_docstring ds) = render_docstring ds.
Proof.
  intros ds. unfold render_docstring, doc_lines, tidy_docstring.
  cbn [short_description long_description params returns raises examples].
  pose proof (param_lines_tidy (params ds)) as Hp.
  pose proof (raises_lines_tidy (raises ds)) as Hr.
  pose proof (example_lines_tidy (examples ds)) as He.
  destruct (params ds) as [|p ps]; destruct (returns ds) as [r|];
    destruct (raises ds) as [|e es]; destruct (examples ds) as [|x xs];
    cbn [option_map]; rewrite ?returns_line_tidy;
    cbn [map] in Hp, Hr, He |- *; rewrite ?Hp, ?Hr, ?He; reflexivity.
Qed.

Lemma concat_snoc (sep : string) (l : list string) (h : string) :
  exists pre, String.concat sep (l ++ [h]) = (pre ++ h)%string.
Proof.
  induction l as [|a l IH].
  - now exists EmptyString.
  - destruct IH as [pre Hpre]. destruct l as [|b l].
    + exists (a ++ sep)%string. simpl.
      clear. induction a; simpl; [reflexivity | now f_equal].
    + exists (a ++ sep ++ pre)%string.
      change (String.concat sep ((a :: b :: l) ++ [h]))
        with (a ++ sep ++ String.concat sep ((b :: l) ++ [h]))%string.
      rewrite Hpre. clear.
      induction a; simpl; [|now f_equal].
      induction sep; simpl; [reflexivity | now f_equal].
Qed.

Lemma flat_map_blank (exs : list DocstringExample) :
  Forall (fun ex => py_strip (or_else (example_description ex) "") = EmptyString) exs ->
  flat_map example_lines exs = [].
Proof.
  induction 1 as [|ex exs Hex _ IH]; simpl; [reflexivity|].
  unfold example_lines at 1. now rewrite Hex.
Qed.

(** X12. A docstring whose examples are all blank still gets its Examples
    header: the output ends with the line [## Examples], with nothing
    under it. *)
Theorem blank_examples_leave_a_bare_header :
  forall (ds : Docstring),
    examples ds <> [] ->
    Forall (fun ex => py_strip (or_else (example_description ex) "") = EmptyString)
           (examples ds) ->
    exists pre, render_docstring ds = (pre ++ "## Examples")%string.
Proof.
  intros ds Hne Hblank. unfold render_docstring, doc_lines.
  destruct (examples ds) as [|ex exs] eqn:Hex; [contradiction|].
  rewrite (flat_map_blank Hblank).
  rewrite !app_assoc.
  match goal with
  | |- context [String.concat newline (?L ++ ["## Examples"])] =>
      destruct (concat_snoc newline L "## Examples") as [pre Hpre]; rewrite Hpre
  end.
  exists pre. rewrite py_rstrip_append; [reflexivity | discriminate].
Qed.

Lemma blank_examples_leave_a_bare_header_witness :
  exists pre, render_docstring blank_example_docstring = (pre ++ "## Examples")%string.
Proof.
  apply (@blank_examples_leave_a_bare_header blank_example_docstring).
  - discriminate.
  - repeat constructor.
Defined.

(** * The deployment validation tool *)

Example validation_examples :
  fst (main join_relative ready_world) = 0%Z
  /\ main join_relative incomplete_world
     = (1%Z,
        ["🔍 Pyodide Deployment Validation"; rule;
         (newline ++ "📋 Wheel file validation")%string;
         ("✅ Wheel file exists: " ++ wheel_path)%string;
         "   Size: 12345 bytes";
         "   ✅ Wheel structure is valid";
         (newline ++ "📋 Marimo files validation")%string;
         "✅ Checking dispersal_kernels_marimo.py:";
         "   ❌ emscripten check";
         "   ❌ wheel_url construction";
         "   ❌ micropip install";
         "   ✅ interactive_functions import";
         "❌ Marimo file missing: diminishing_marimo.py";
         (newline ++ "📋 URL pattern validation")%string;
         "✅ URL construction works correctly";
         ("   Generated: " ++ expected_url)%string;
         (newline ++ rule)%string;
         "💥 Some validation checks failed!";
         "🔧 Please fix the issues before deployment"]).
Proof. vm_compute. repeat split. Qed.

Lemma check_patterns_result (content : string) (cs : list (string * string))
      (file_ok : bool) (out : list string) :
  fst (check_patterns content cs file_ok out)
  = file_ok && forallb (fun c : string * string => is_substring (snd c) content) cs
  /\ List.length (snd (check_patterns content cs file_ok out))
     = (List.length out + List.length cs)%nat.
Proof.
  revert file_ok out; induction cs as [|[name pattern] cs IH]; intros file_ok out.
  - simpl. now rewrite andb_true_r, Nat.add_0_r.
  - cbn [check_patterns forallb snd].
    destruct (is_substring pattern content);
      destruct (IH file_ok (out ++ [("   ✅ " ++ name)%string])) as [H1 H2];
      destruct (IH false (out ++ [("   ❌ " ++ name)%string])) as [H3 H4].
    + rewrite H1, H2, length_app. simpl. split; [reflexivity | lia].
    + rewrite H3, H4, length_app. simpl. split; [now rewrite andb_false_r | lia].
Qed.

Lemma list_sum_cons_eq (a : nat) (l : list nat) : list_sum (a :: l) = (a + list_sum l)%nat.
Proof. reflexivity. Qed.

Lemma check_files_result (w : World) (files : list string) (all_good : bool)
      (out : list string) :
  fst (check_files w files all_good out) = all_good && forallb (notebook_passes w) files
  /\ List.length (snd (check_files w files all_good out))
     = (List.length out + list_sum (map (notebook_lines w) files))%nat.
Proof.
  revert all_good out; induction files as [|name files IH]; intros all_good out.
  - simpl. now rewrite andb_true_r, Nat.add_0_r.
  - cbn [check_files forallb map]. rewrite list_sum_cons_eq.
    unfold notebook_passes at 1, notebook_lines at 1.
    destruct (read_file w name) as [content|].
    + destruct (check_patterns content checks true
                  (out ++ [("✅ Checking " ++ name ++ ":")%string])) as [ok out'] eqn:Hc.
      pose proof (check_patterns_result content checks true
                    (out ++ [("✅ Checking " ++ name ++ ":")%string])) as [H1 H2].
      rewrite Hc in H1, H2. cbn [fst snd] in H1, H2.
      destruct (IH (if ok then all_good else false) out') as [H3 H4].
      rewrite H3, H4, H2, length_app. unfold has_all_patterns.
      rewrite andb_true_l in H1. rewrite <- H1.
      split; [destruct ok, all_good; reflexivity | cbn [List.length]; lia].
    + destruct (IH false (out ++ [("❌ Marimo file missing: " ++ name)%string])) as [H3 H4].
      rewrite H3, H4, length_app.
      split; [now rewrite andb_false_r | cbn [List.length]; lia].
Qed.

(** X13. [check_marimo_files] returns [True] exactly when both notebooks
    exist and each holds all four required patterns; and it examines every
    notebook whatever it found before: it prints one line for a missing
    file and five for a file that exists. *)
Theorem check_marimo_files_passes_iff :
  forall (w : World),
    (fst (check_marimo_files w) = true
     <-> Forall (fun filename =>
                   exists content,
                     read_file w filename = Some content
                     /\ Forall (fun c : string * string => is_substring (snd c) content = true)
                               checks)
                marimo_files)
    /\ List.length (snd (check_marimo_files w))
       = list_sum (map (fun filename => match read_file w filename with
                                        | Some _ => 5%nat
                                        | None => 1%nat
                                        end) marimo_files).
Proof.
  intros w. unfold check_marimo_files.
  destruct (check_files_result w marimo_files true []) as [H1 H2].
  split.
  - rewrite H1, andb_true_l, forallb_forall, Forall_forall.
    split; intros H name Hin; specialize (H name Hin); unfold notebook_passes in *.
    + destruct (read_file w name) as [content|]; [|discriminate H].
      exists content. split; [reflexivity|].
      unfold has_all_patterns in H. rewrite forallb_forall in H.
      now apply Forall_forall.
    + destruct H as (content & -> & Hc).
      unfold has_all_patterns. rewrite forallb_forall.
      now apply Forall_forall.
  - rewrite H2. reflexivity.
Qed.

Lemma run_all_result (cs : list (string * (bool * list string))) (all_passed : bool)
      (out : list string) :
  fst (run_all cs all_passed out)
  = all_passed && forallb (fun c : string * (bool * list string) => fst (snd c)) cs.
Proof.
  revert all_passed out; induction cs as [|[name [result printed]] cs IH];
    intros all_passed out.
  - simpl. now rewrite andb_true_r.
  - cbn [run_all forallb fst snd]. rewrite IH.
    destruct result, all_passed; reflexivity.
Qed.

Lemma check_wheel_file_result (w : World) : fst (check_wheel_file w) = wheel_is_valid w.
Proof.
  unfold check_wheel_file, wheel_is_valid, any_contains.
  destruct (wheel_file w) as [f|]; [|reflexivity].
  destruct (zip f) as [|files]; [reflexivity|].
  destruct (existsb (is_substring "__init__.py") files
            && existsb (is_substring "METADATA") files); reflexivity.
Qed.

(** X14. [main] returns 0 or 1, and 0 exactly when the wheel is there, is
    a zip and has a member named like [__init__.py] and one named like
    [METADATA], both notebooks pass [check_marimo_files], and [urljoin]
    gives the expected address of the wheel. *)
Theorem main_exit_code :
  forall (urljoin : string -> string -> string) (w : World),
    (fst (main urljoin w) = 0%Z \/ fst (main urljoin w) = 1%Z)
    /\ (fst (main urljoin w) = 0%Z
        <-> ((exists f files,
                wheel_file w = Some f /\ zip f = Members files
                /\ (exists name, In name files /\ is_substring "__init__.py" name = true)
                /\ (exists name, In name files /\ is_substring "METADATA" name = true))
             /\ fst (check_marimo_files w) = true
             /\ urljoin
                  "https://harryeslick.github.io/interactive_functions/examples/dispersal_kernels/"
                  "assets/wheels/interactive_functions-latest-py3-none-any.whl"
                = expected_url)).
Proof.
  intros urljoin w.
  assert (fst (main urljoin w)
          = if wheel_is_valid w && (fst (check_marimo_files w)
                                    && fst (check_url_patterns urljoin))
            then 0%Z else 1%Z) as Hmain.
  { unfold main.
    destruct (run_all
                [("Wheel file validation", check_wheel_file w);
                 ("Marimo files validation", check_marimo_files w);
                 ("URL pattern validation", check_url_patterns urljoin)] true
                ["🔍 Pyodide Deployment Validation"; rule]) as [all_passed out] eqn:Hrun.
    pose proof (run_all_result
                  [("Wheel file validation", check_wheel_file w);
                   ("Marimo files validation", check_marimo_files w);
                   ("URL pattern validation", check_url_patterns urljoin)] true
                  ["🔍 Pyodide Deployment Validation"; rule]) as H.
    rewrite Hrun in H. cbn [fst snd forallb] in H.
    rewrite andb_true_l, andb_true_r, check_wheel_file_result in H.
    rewrite <- H. destruct all_passed; reflexivity. }
  assert (fst (check_url_patterns urljoin) = true
          <-> urljoin
                "https://harryeslick.github.io/interactive_functions/examples/dispersal_kernels/"
                "assets/wheels/interactive_functions-latest-py3-none-any.whl"
              = expected_url) as Hurl.
  { unfold check_url_patterns.
    replace (py_endswith
               "https://harryeslick.github.io/interactive_functions/examples/dispersal_kernels/"
               "/") with true by reflexivity.
    cbv zeta.
    destruct (String.eqb_spec
                (urljoin
                   "https://harryeslick.github.io/interactive_functions/examples/dispersal_kernels/"
                   "assets/wheels/interactive_functions-latest-py3-none-any.whl")
                expected_url) as [Heq|Hne]; simpl; split; intros H; auto;
      try discriminate H; try contradiction. }
  assert (wheel_is_valid w = true
          <-> exists f files,
                wheel_file w = Some f /\ zip f = Members files
                /\ (exists name, In name files /\ is_substring "__init__.py" name = true)
                /\ (exists name, In name files /\ is_substring "METADATA" name = true)) as Hwheel.
  { unfold wheel_is_valid. split.
    - destruct (wheel_file w) as [f|]; [|discriminate].
      destruct (zip f) as [|files] eqn:Hzip; [discriminate|].
      intros H. apply andb_prop in H. destruct H as [Hi Hm].
      apply existsb_exists in Hi. apply existsb_exists in Hm.
      exists f, files. auto.
    - intros (f & files & -> & -> & Hi & Hm).
      apply andb_true_intro. split; now apply existsb_exists. }
  rewrite Hmain. split.
  - destruct (wheel_is_valid w && (fst (check_marimo_files w)
                                   && fst (check_url_patterns urljoin))); auto.
  - rewrite <- Hwheel, <- Hurl.
    destruct (wheel_is_valid w), (fst (check_marimo_files w)),
      (fst (check_url_patterns urljoin)); simpl; split; intros H;
      try discriminate H; try reflexivity; intuition discriminate.
Qed.

(** * NaN parameters and the global guard *)

Lemma div_nan_r (x : float) : F64.div x F64.nan = F64.nan.
Proof. destruct x; reflexivity. Qed.

Lemma le_nan_zero : F64.le F64.nan F64.zero = false.
Proof. reflexivity. Qed.

(** X15. A NaN scale parameter is not [<= 0], so it passes the global
    guard; the kernels then return NaN at every position all the same,
    whatever the distances (for the kernels with a shape parameter, when
    that one passes the guard too). *)
Theorem nan_scale_gives_nan_everywhere :
  forall (P : Platform), AnnexF P ->
  forall (x : pyval) (A : ndarray float) (i : nat) (r : float),
    np_asarray x = Ok A -> nth_error (data A) i = Some r ->
    at_pos (kernel_exponential x F64.nan) i F64.nan
    /\ at_pos (kernel_gaussian x F64.nan) i F64.nan
    /\ (forall p, F64.le p F64.zero = false ->
          at_pos (kernel_powerlaw x F64.nan p) i F64.nan
          /\ at_pos (kernel_rectangular_hyperbola x F64.nan p) i F64.nan
          /\ at_pos (kernel_exppower x F64.nan p) i F64.nan).
Proof.
  intros P HF x A i r HA Hr. split; [|split].
  - pose proof (@kernel_exponential_at P x A F64.nan i r le_nan_zero HA Hr) as H.
    now rewrite div_nan_r, exp_nan in H.
  - pose proof (@kernel_gaussian_at P x A F64.nan i r le_nan_zero HA Hr) as H.
    now rewrite div_nan_r, mul_nan_l, opp_nan, exp_nan in H.
  - intros p Hp. split; [|split].
    + pose proof (@kernel_powerlaw_at P x A F64.nan p i r le_nan_zero Hp HA Hr) as H.
      cbv zeta in H. now rewrite div_nan_r, add_nan_r, gt_nan_zero in H.
    + pose proof (@kernel_rectangular_hyperbola_at P x A F64.nan p i r
                    le_nan_zero Hp HA Hr) as H.
      cbv zeta in H.
      now rewrite div_nan_r, (power_nan _ (not_le_zero_not_eq _ Hp)),
        add_nan_r, gt_nan_zero in H.
    + pose proof (@kernel_exppower_at P x A F64.nan p i r le_nan_zero Hp HA Hr) as H.
      now rewrite div_nan_r, (power_nan _ (not_le_zero_not_eq _ Hp)), opp_nan, exp_nan in H.
Qed.

Lemma nan_scale_gives_nan_everywhere_witness :
  at_pos (kernel_exponential (P := Ref.platform) sample_input F64.nan) 2 F64.nan
  /\ at_pos (kernel_gaussian (P := Ref.platform) sample_input F64.nan) 2 F64.nan
  /\ at_pos (kernel_powerlaw (P := Ref.platform) sample_input F64.nan (Ref.lit "2")) 2 F64.nan
  /\ at_pos (kernel_rectangular_hyperbola (P := Ref.platform) sample_input
               F64.nan (Ref.lit "2")) 2 F64.nan
  /\ at_pos (kernel_exppower (P := Ref.platform) sample_input F64.nan (Ref.lit "2")) 2 F64.nan.
Proof.
  destruct (@nan_scale_gives_nan_everywhere Ref.platform Ref_annexF sample_input sample_array
              2 (Ref.lit "2.5") eq_refl eq_refl) as (H1 & H2 & H3).
  split; [exact H1|]. split; [exact H2|].
  apply (H3 (Ref.lit "2")). reflexivity.
Defined.

(** X16. A NaN shape parameter passes the guard as well, and it does not
    always reach the output: on a platform with [pow(1, y) = 1] for every
    [y], the power-law kernel with a NaN exponent is 1 at the origin. *)
Theorem nan_exponent_is_lost_at_the_origin :
  forall (P : Platform), AnnexFExact P ->
  forall (x : pyval) (A : ndarray float) (i : nat) (s : bool) (alpha : float),
    np_asarray x = Ok A -> nth_error (data A) i = Some (S754_zero s) ->
    F64.gt alpha F64.zero = true ->
    at_pos (kernel_powerlaw x alpha F64.nan) i F64.one.
Proof.
  intros P HF x A i s alpha HA Hi Ha.
  pose proof (@kernel_powerlaw_at P x A alpha F64.nan i _
                (gt_zero_not_le _ Ha) le_nan_zero HA Hi) as H.
  cbv zeta in H.
  destruct (div_zero_by_positive s alpha Ha) as [s' Hs']. rewrite Hs' in H.
  now rewrite add_one_zero, gt_one_zero, power_one in H.
Qed.

Lemma nan_exponent_is_lost_at_the_origin_witness :
  at_pos (kernel_powerlaw (P := Ref.platform) (PyArray zeros_array) (Ref.lit "10") F64.nan)
    0 F64.one.
Proof.
  apply (@nan_exponent_is_lost_at_the_origin Ref.platform Ref_annexF_exact
           (PyArray zeros_array) zeros_array 0 false (Ref.lit "10") eq_refl eq_refl).
  reflexivity.
Defined.

(** * The export tool *)

Example export_examples :
  with_suffix "kernels.py" ".html" = "kernels.html"
  /\ with_suffix "a.b.py" ".html" = "a.b.html"
  /\ with_suffix ".py" ".html" = ".py.html"
  /\ export_marimo_apps failing_run ["proj"] ["c.py"; "a.py"; "b.py"]
     = {| printed := ["Exporting /proj/docs/notebooks/a.py -> /proj/docs/notebooks/a.html";
                      "Exporting /proj/docs/notebooks/b.py -> /proj/docs/notebooks/b.html"];
          commands := [export_command ["proj"; "docs"; "notebooks"] "a.py";
                       export_command ["proj"; "docs"; "notebooks"] "b.py"];
          outcome := CalledProcessError 2
                       (export_command ["proj"; "docs"; "notebooks"] "b.py") |}.
Proof. vm_compute. repeat split. Qed.

Section ExportToolFacts.

Variable run : list string -> Z.

Lemma export_loop_all (dir : Path) (names : list string)
      (out : list string) (done : list (list string)) :
  Forall (fun name => run (export_command dir name) = 0%Z) names ->
  commands (export_loop run dir names out done) = done ++ map (export_command dir) names
  /\ outcome (export_loop run dir names out done) = Exported
  /\ List.length (printed (export_loop run dir names out done))
     = (List.length out + List.length names)%nat.
Proof.
  intros H. revert out done.
  induction H as [|name names Hname _ IH]; intros out done; cbn [export_loop].
  - cbn [commands outcome printed map List.length]. now rewrite app_nil_r, Nat.add_0_r.
  - rewrite Hname. cbn [Z.eqb].
    destruct (IH (out ++ [("Exporting " ++ path_str (joinpath dir name) ++ " -> "
                           ++ path_str (joinpath dir (with_suffix name ".html")))%string])
                 (done ++ [export_command dir name])) as (H1 & H2 & H3).
    rewrite H1, H2, H3, <- app_assoc, length_app. cbn [map app List.length].
    repeat split. lia.
Qed.

Lemma export_loop_fails (dir : Path) (pre : list string) (name : string) (post : list string)
      (out : list string) (done : list (list string)) :
  Forall (fun n => run (export_command dir n) = 0%Z) pre ->
  run (export_command dir name) <> 0%Z ->
  commands (export_loop run dir (pre ++ name :: post) out done)
  = done ++ map (export_command dir) (pre ++ [name])
  /\ outcome (export_loop run dir (pre ++ name :: post) out done)
     = CalledProcessError (run (export_command dir name)) (export_command dir name).
Proof.
  intros Hpre Hname. revert out done.
  induction Hpre as [|n pre Hn _ IH]; intros out done; cbn [app export_loop].
  - apply Z.eqb_neq in Hname. rewrite Hname. cbn [commands outcome map]. auto.
  - rewrite Hn. cbn [Z.eqb].
    destruct (IH (out ++ [("Exporting " ++ path_str (joinpath dir n) ++ " -> "
                           ++ path_str (joinpath dir (with_suffix n ".html")))%string])
                 (done ++ [export_command dir n])) as (H1 & H2).
    rewrite H1, H2, <- app_assoc. cbn [map app]. auto.
Qed.

End ExportToolFacts.

(** X17. [export_marimo_apps] runs one export command per notebook, in
    the sorted order of the names, and stops at the first command that
    fails: when all succeed every notebook is exported; otherwise the
    failing command is the last one run, the call ends in
    [CalledProcessError], and the notebooks after it are not exported. *)
Theorem export_runs_in_order_until_failure :
  forall (run : list string -> Z) (root : Path) (listing : list string),
    Permutation listing (NameSort.sort listing)
    /\ Sorted (fun a b => String.leb a b = true) (NameSort.sort listing)
    /\ (Forall (fun name => run (export_command (root ++ ["docs"; "notebooks"]) name) = 0%Z)
               (NameSort.sort listing) ->
        commands (export_marimo_apps run root listing)
        = map (export_command (root ++ ["docs"; "notebooks"])) (NameSort.sort listing)
        /\ outcome (export_marimo_apps run root listing) = Exported)
    /\ (forall pre name post,
          NameSort.sort listing = pre ++ name :: post ->
          Forall (fun n => run (export_command (root ++ ["docs"; "notebooks"]) n) = 0%Z) pre ->
          run (export_command (root ++ ["docs"; "notebooks"]) name) <> 0%Z ->
          commands (export_marimo_apps run root listing)
          = map (export_command (root ++ ["docs"; "notebooks"])) (pre ++ [name])
          /\ outcome (export_marimo_apps run root listing)
             = CalledProcessError
                 (run (export_command (root ++ ["docs"; "notebooks"]) name))
                 (export_command (root ++ ["docs"; "notebooks"]) name)).
Proof.
  intros run root listing.
  split; [apply NameSort.Permuted_sort|].
  split; [apply NameSort.Sorted_sort|].
  unfold export_marimo_apps. split.
  - intros Hall.
    destruct (NameSort.sort listing) as [|n names] eqn:Hs; [now split|].
    destruct (@export_loop_all run (root ++ ["docs"; "notebooks"]) (n :: names) [] [] Hall)
      as (H1 & H2 & _).
    now rewrite H1, H2.
  - intros pre name post Hs Hpre Hname. rewrite Hs.
    destruct (@export_loop_fails run (root ++ ["docs"; "notebooks"]) pre name post [] []
                Hpre Hname) as (H1 & H2).
    destruct (pre ++ name :: post) as [|n names] eqn:Hl;
      [now destruct pre|].
    now rewrite H1, H2.
Qed.

Lemma export_runs_in_order_until_failure_witness :
  commands (export_marimo_apps failing_run ["proj"] ["c.py"; "a.py"; "b.py"])
  = map (export_command ["proj"; "docs"; "notebooks"]) ["a.py"; "b.py"]
  /\ outcome (export_marimo_apps failing_run ["proj"] ["c.py"; "a.py"; "b.py"])
     = CalledProcessError 2 (export_command ["proj"; "docs"; "notebooks"] "b.py").
Proof.
  apply (proj2 (proj2 (proj2 (export_runs_in_order_until_failure failing_run ["proj"]
                                ["c.py"; "a.py"; "b.py"])))
           ["a.py"] "b.py" ["c.py"]).
  - reflexivity.
  - repeat constructor.
  - discriminate.
Defined.
